(** * A shallow embedding of the ocr-ai provider layer and orchestrator

    The model follows the TypeScript sources:
    - [src/src/providers/gemini.provider.ts] (GeminiProvider, BaseProvider),
      [src/src/providers/grok.provider.ts] (GrokProvider), and the
      Vertex, OpenAI and Claude providers;
    - [src/src/loaders/file.loader.ts] (loaders and lookup tables);
    - [src/src/ocr.ts] (OcrAI: provider creation, extraction, error packaging).

    JavaScript strings are modelled as Rocq [string]s of code units 0..255
    ([ascii]); asynchronous code is modelled in a small free monad whose
    suspension points are the awaited I/O calls (see [prog] below). *)

From Stdlib Require Import String Ascii List ZArith NArith QArith Bool Lia.
From Stdlib Require DecimalPos.
From Stdlib Require Import Qround.
Local Close Scope Q_scope.
Import ListNotations.
Local Open Scope string_scope.
Set Warnings "-register-all".

(** ** JavaScript string helpers *)

Definition dq : ascii := "034"%char.
Definition bslash : ascii := "092"%char.

(** [String.prototype.trim] whitespace among code units 0..255:
    TAB, LF, VT, FF, CR, SPACE and NO-BREAK SPACE. *)
Definition is_js_ws (c : ascii) : bool :=
  let n := nat_of_ascii c in
  ((Nat.leb 9 n) && (Nat.leb n 13)) || (Nat.eqb n 32) || (Nat.eqb n 160).

Fixpoint trim_start (s : string) : string :=
  match s with
  | EmptyString => EmptyString
  | String c r => if is_js_ws c then trim_start r else s
  end.

Fixpoint trim_end (s : string) : string :=
  match s with
  | EmptyString => EmptyString
  | String c r =>
      match trim_end r with
      | EmptyString => if is_js_ws c then EmptyString else String c EmptyString
      | r' => String c r'
      end
  end.

(** [s.trim()] *)
Definition trim (s : string) : string := trim_end (trim_start s).

(** [s.startsWith(pre)] *)
Definition starts_with (pre s : string) : bool := String.prefix pre s.

(** [s.endsWith(suf)] *)
Definition ends_with (suf s : string) : bool :=
  (Nat.leb (String.length suf) (String.length s)) &&
  String.eqb (substring (String.length s - String.length suf) (String.length suf) s) suf.

(** [s.slice(n)] for [n >= 0] *)
Definition slice_from (n : nat) (s : string) : string :=
  substring n (String.length s - n) s.

(** [s.slice(0, -n)] for [n > 0] *)
Definition slice_drop_end (n : nat) (s : string) : string :=
  substring 0 (String.length s - n) s.

(** [s.substring(0, n)] *)
Definition substring_to (n : nat) (s : string) : string := substring 0 n s.

(** ** JSON values, [JSON.stringify] and [JSON.parse]

    Numbers are modelled by their integral values ([Z]): the parser below
    refuses fractions and exponents.  Strings are of code units 0..255.  An
    object is the list of its properties in enumeration order; the parser
    keeps the order of the text, where JavaScript lists integer-like keys
    first. *)

Inductive json : Type :=
| JNull
| JBool (b : bool)
| JNum (z : Z)
| JStr (s : string)
| JArr (xs : list json)
| JObj (kvs : list (string * json)).

(** Lower-case hexadecimal digit, as used by [JSON.stringify]'s [\u00XX]. *)
Definition hex_digit (n : nat) : ascii :=
  ascii_of_nat (if Nat.ltb n 10 then 48 + n else 87 + n).

(** QuoteJSONString, one code unit. *)
Definition escape_char (c : ascii) : string :=
  let n := nat_of_ascii c in
  if Nat.eqb n 34 then String bslash (String dq EmptyString)
  else if Nat.eqb n 92 then String bslash (String bslash EmptyString)
  else if Nat.eqb n 8 then "\b"
  else if Nat.eqb n 12 then "\f"
  else if Nat.eqb n 10 then "\n"
  else if Nat.eqb n 13 then "\r"
  else if Nat.eqb n 9 then "\t"
  else if Nat.ltb n 32 then
    "\u00" ++ String (hex_digit (n / 16)) (String (hex_digit (n mod 16)) EmptyString)
  else String c EmptyString.

Fixpoint escape_string (s : string) : string :=
  match s with
  | EmptyString => EmptyString
  | String c r => escape_char c ++ escape_string r
  end.

Definition quote (s : string) : string :=
  String dq (escape_string s ++ String dq EmptyString).

Fixpoint uint_to_string (u : Decimal.uint) : string :=
  match u with
  | Decimal.Nil => EmptyString
  | Decimal.D0 u => String "0"%char (uint_to_string u)
  | Decimal.D1 u => String "1"%char (uint_to_string u)
  | Decimal.D2 u => String "2"%char (uint_to_string u)
  | Decimal.D3 u => String "3"%char (uint_to_string u)
  | Decimal.D4 u => String "4"%char (uint_to_string u)
  | Decimal.D5 u => String "5"%char (uint_to_string u)
  | Decimal.D6 u => String "6"%char (uint_to_string u)
  | Decimal.D7 u => String "7"%char (uint_to_string u)
  | Decimal.D8 u => String "8"%char (uint_to_string u)
  | Decimal.D9 u => String "9"%char (uint_to_string u)
  end.

(** Number::toString on an integral value. *)
Definition show_Z (z : Z) : string :=
  match z with
  | Z0 => "0"
  | Zpos p => uint_to_string (Pos.to_uint p)
  | Zneg p => String "-"%char (uint_to_string (Pos.to_uint p))
  end.

(** [JSON.stringify(v)] without indentation. *)
Fixpoint stringify (v : json) : string :=
  match v with
  | JNull => "null"
  | JBool b => if b then "true" else "false"
  | JNum z => show_Z z
  | JStr s => quote s
  | JArr xs => "[" ++ String.concat "," (map stringify xs) ++ "]"
  | JObj kvs =>
      "{" ++ String.concat "," (map (fun '(k, x) => quote k ++ ":" ++ stringify x) kvs)
          ++ "}"
  end.

(** JSON whitespace (JSON.parse): TAB, LF, CR, SPACE. *)
Definition is_json_ws (c : ascii) : bool :=
  let n := nat_of_ascii c in (Nat.eqb n 9) || (Nat.eqb n 10) || (Nat.eqb n 13) || (Nat.eqb n 32).

Fixpoint skip_ws (s : string) : string :=
  match s with
  | EmptyString => EmptyString
  | String c r => if is_json_ws c then skip_ws r else s
  end.

Fixpoint str_drop (n : nat) (s : string) : string :=
  match n, s with
  | O, _ => s
  | S n', String _ r => str_drop n' r
  | S _, EmptyString => EmptyString
  end.

(** Consume the literal [lit] at the front of [s]. *)
Definition expect (lit s : string) : option string :=
  if String.prefix lit s then Some (str_drop (String.length lit) s) else None.

Definition hex_value (c : ascii) : option nat :=
  let n := nat_of_ascii c in
  if (Nat.leb 48 n) && (Nat.leb n 57) then Some (n - 48)
  else if (Nat.leb 97 n) && (Nat.leb n 102) then Some (n - 87)
  else if (Nat.leb 65 n) && (Nat.leb n 70) then Some (n - 55)
  else None.

(** A [\uXXXX] escape; code units above 255 lie outside the model. *)
Definition hex4 (a b c d : ascii) : option ascii :=
  match hex_value a, hex_value b, hex_value c, hex_value d with
  | Some x1, Some x2, Some x3, Some x4 =>
      let n := ((x1 * 16 + x2) * 16 + x3) * 16 + x4 in
      if Nat.ltb n 256 then Some (ascii_of_nat n) else None
  | _, _, _, _ => None
  end.

Definition simple_escape (e : ascii) : option ascii :=
  let n := nat_of_ascii e in
  if Nat.eqb n 34 then Some dq
  else if Nat.eqb n 92 then Some bslash
  else if Nat.eqb n 47 then Some "/"%char
  else if Nat.eqb n 98 then Some (ascii_of_nat 8)
  else if Nat.eqb n 102 then Some (ascii_of_nat 12)
  else if Nat.eqb n 110 then Some (ascii_of_nat 10)
  else if Nat.eqb n 114 then Some (ascii_of_nat 13)
  else if Nat.eqb n 116 then Some (ascii_of_nat 9)
  else None.

Definition cons_fst (c : ascii) (o : option (string * string)) : option (string * string) :=
  match o with
  | Some (str, rest) => Some (String c str, rest)
  | None => None
  end.

(** The body of a string literal, after its opening quote; returns the
    decoded string and the text after the closing quote. *)
Fixpoint parse_string_body (s : string) : option (string * string) :=
  match s with
  | EmptyString => None
  | String c r =>
      if Ascii.eqb c dq then Some (EmptyString, r)
      else if Ascii.eqb c bslash then
        match r with
        | EmptyString => None
        | String e r2 =>
            if Ascii.eqb e "u"%char then
              match r2 with
              | String h1 (String h2 (String h3 (String h4 r3))) =>
                  match hex4 h1 h2 h3 h4 with
                  | Some c' => cons_fst c' (parse_string_body r3)
                  | None => None
                  end
              | _ => None
              end
            else match simple_escape e with
                 | Some c' => cons_fst c' (parse_string_body r2)
                 | None => None
                 end
        end
      else if Nat.ltb (nat_of_ascii c) 32 then None
      else cons_fst c (parse_string_body r)
  end.

Definition digit_ctor (c : ascii) : option (Decimal.uint -> Decimal.uint) :=
  if Ascii.eqb c "0"%char then Some Decimal.D0
  else if Ascii.eqb c "1"%char then Some Decimal.D1
  else if Ascii.eqb c "2"%char then Some Decimal.D2
  else if Ascii.eqb c "3"%char then Some Decimal.D3
  else if Ascii.eqb c "4"%char then Some Decimal.D4
  else if Ascii.eqb c "5"%char then Some Decimal.D5
  else if Ascii.eqb c "6"%char then Some Decimal.D6
  else if Ascii.eqb c "7"%char then Some Decimal.D7
  else if Ascii.eqb c "8"%char then Some Decimal.D8
  else if Ascii.eqb c "9"%char then Some Decimal.D9
  else None.

Definition is_digit (c : ascii) : bool :=
  match digit_ctor c with Some _ => true | None => false end.

Fixpoint read_digits (s : string) : Decimal.uint * string :=
  match s with
  | EmptyString => (Decimal.Nil, EmptyString)
  | String c r =>
      match digit_ctor c with
      | Some d => let '(u, rest) := read_digits r in (d u, rest)
      | None => (Decimal.Nil, s)
      end
  end.

(** A number must not continue with a fraction or an exponent: those are
    valid JSON but lie outside the integral model. *)
Definition number_continues (s : string) : bool :=
  match s with
  | String c _ =>
      Ascii.eqb c "."%char || Ascii.eqb c "e"%char || Ascii.eqb c "E"%char || is_digit c
  | EmptyString => false
  end.

Definition parse_number (s : string) : option (json * string) :=
  let '(neg, s1) :=
    match s with
    | String c r => if Ascii.eqb c "-"%char then (true, r) else (false, s)
    | EmptyString => (false, s)
    end in
  let '(u, rest) := read_digits s1 in
  match u with
  | Decimal.Nil => None
  | Decimal.D0 (Decimal.Nil) =>
      if number_continues rest then None else Some (JNum Z0, rest)
  | Decimal.D0 _ => None
  | _ =>
      if number_continues rest then None
      else
        let z := Z.of_N (N.of_uint u) in
        Some (JNum (if neg then Z.opp z else z), rest)
  end.

(** Property definition of [JSON.parse] on an object under construction:
    a repeated key keeps its position and takes the later value. *)
Fixpoint obj_set (kvs : list (string * json)) (k : string) (v : json) : list (string * json) :=
  match kvs with
  | [] => [(k, v)]
  | (k', v') :: rest =>
      if String.eqb k k' then (k', v) :: rest else (k', v') :: obj_set rest k v
  end.

Definition build_object (members : list (string * json)) : list (string * json) :=
  fold_left (fun acc '(k, v) => obj_set acc k v) members [].

Definition head_is (c : ascii) (s : string) : option string :=
  match s with
  | String c' r => if Ascii.eqb c c' then Some r else None
  | EmptyString => None
  end.

Fixpoint parse_value (fuel : nat) (s : string) {struct fuel} : option (json * string) :=
  match fuel with
  | O => None
  | S f =>
      match s with
      | EmptyString => None
      | String c r =>
          if Ascii.eqb c "n"%char then option_map (fun r' => (JNull, r')) (expect "ull" r)
          else if Ascii.eqb c "t"%char then option_map (fun r' => (JBool true, r')) (expect "rue" r)
          else if Ascii.eqb c "f"%char then option_map (fun r' => (JBool false, r')) (expect "alse" r)
          else if Ascii.eqb c dq then
            option_map (fun '(str, r') => (JStr str, r')) (parse_string_body r)
          else if Ascii.eqb c "["%char then
            let r := skip_ws r in
            match head_is "]"%char r with
            | Some r' => Some (JArr [], r')
            | None => option_map (fun '(xs, r') => (JArr xs, r')) (parse_elems f r)
            end
          else if Ascii.eqb c "{"%char then
            let r := skip_ws r in
            match head_is "}"%char r with
            | Some r' => Some (JObj [], r')
            | None =>
                option_map (fun '(ms, r') => (JObj (build_object ms), r')) (parse_members f r)
            end
          else if Ascii.eqb c "-"%char || is_digit c
          then parse_number s
          else None
      end
  end
with parse_elems (fuel : nat) (s : string) {struct fuel} : option (list json * string) :=
  match fuel with
  | O => None
  | S f =>
      match parse_value f s with
      | None => None
      | Some (v, r) =>
          let r := skip_ws r in
          match head_is ","%char r with
          | Some r' =>
              option_map (fun '(vs, r'') => (v :: vs, r'')) (parse_elems f (skip_ws r'))
          | None =>
              match head_is "]"%char r with
              | Some r' => Some ([v], r')
              | None => None
              end
          end
      end
  end
with parse_members (fuel : nat) (s : string) {struct fuel}
  : option (list (string * json) * string) :=
  match fuel with
  | O => None
  | S f =>
      match head_is dq s with
      | None => None
      | Some s1 =>
          match parse_string_body s1 with
          | None => None
          | Some (k, r1) =>
              match head_is ":"%char (skip_ws r1) with
              | None => None
              | Some r2 =>
                  match parse_value f (skip_ws r2) with
                  | None => None
                  | Some (v, r3) =>
                      let r3 := skip_ws r3 in
                      match head_is ","%char r3 with
                      | Some r4 =>
                          option_map (fun '(ms, r5) => ((k, v) :: ms, r5))
                                     (parse_members f (skip_ws r4))
                      | None =>
                          match head_is "}"%char r3 with
                          | Some r4 => Some ([(k, v)], r4)
                          | None => None
                          end
                      end
                  end
              end
          end
      end
  end.

(** [JSON.parse(s)]: one value, surrounded only by JSON whitespace.  Every
    nested call of the parser consumes a character before the next one, so
    [2 * length s + 2] steps never run out on a text of length [length s]. *)
Definition json_parse (s : string) : option json :=
  match parse_value (2 * String.length s + 2) (skip_ws s) with
  | Some (v, rest) =>
      match skip_ws rest with
      | EmptyString => Some v
      | _ => None
      end
  | None => None
  end.

(** ** Thrown values and settled promises *)

(** A thrown JavaScript value: an [Error] instance with its [message], or
    any other value, represented by [String(value)]. *)
Inductive js_error : Type :=
| ErrorObj (message : string)
| Thrown (repr : string).

(** A synchronous call that returns or throws; a promise that resolves or
    rejects. *)
Inductive outcome (A : Type) : Type :=
| Ok (a : A)
| Rejected (e : js_error).
Arguments Ok {A} a.
Arguments Rejected {A} e.

(** ** BaseProvider.parseJsonResponse *)

Definition nl : string := String (ascii_of_nat 10) EmptyString.
Definition fence : string := "```".

(** The cleaning steps of [parseJsonResponse], before [JSON.parse]. *)
Definition strip_fences (response : string) : string :=
  let cleaned := trim response in
  let cleaned :=
    if starts_with "```json" cleaned then slice_from 7 cleaned
    else if starts_with fence cleaned then slice_from 3 cleaned
    else cleaned in
  let cleaned := if ends_with fence cleaned then slice_drop_end 3 cleaned else cleaned in
  trim cleaned.

(** [parseJsonResponse], for a given [JSON.parse]. *)
Definition parseJsonResponse_with (parse : string -> option json) (response : string)
  : outcome json :=
  match parse (strip_fences response) with
  | Some v => Ok v
  | None =>
      Rejected (ErrorObj ("Failed to parse JSON response: " ++ substring_to 200 response
                          ++ "..."))
  end.

Definition parseJsonResponse (response : string) : outcome json :=
  parseJsonResponse_with json_parse response.

(** Well-formed JSON values: the values of JavaScript objects, whose
    property names are pairwise distinct. *)
Fixpoint nodupb (l : list string) : bool :=
  match l with
  | [] => true
  | k :: r => negb (existsb (String.eqb k) r) && nodupb r
  end.

Fixpoint json_wf (v : json) : bool :=
  match v with
  | JArr xs => forallb json_wf xs
  | JObj kvs => nodupb (map fst kvs) && forallb (fun '(_, x) => json_wf x) kvs
  | _ => true
  end.

(** Number of parser steps a value needs. *)
Fixpoint jsize (v : json) : nat :=
  match v with
  | JArr xs => S (list_sum (map (fun x => S (jsize x)) xs))
  | JObj kvs => S (list_sum (map (fun '(_, x) => S (jsize x)) kvs))
  | _ => 1
  end.

Definition member_str (kv : string * json) : string :=
  let '(k, x) := kv in quote k ++ ":" ++ stringify x.

(** ** Induction over nested JSON values *)

Section JsonInd.
Variable P : json -> Prop.
Hypothesis HNull : P JNull.
Hypothesis HBool : forall b, P (JBool b).
Hypothesis HNum : forall z, P (JNum z).
Hypothesis HStr : forall s, P (JStr s).
Hypothesis HArr : forall xs, Forall P xs -> P (JArr xs).
Hypothesis HObj : forall kvs, Forall (fun kv => P (snd kv)) kvs -> P (JObj kvs).

Fixpoint json_ind' (v : json) : P v :=
  match v with
  | JNull => HNull
  | JBool b => HBool b
  | JNum z => HNum z
  | JStr s => HStr s
  | JArr xs =>
      HArr xs ((fix go (l : list json) : Forall P l :=
                  match l with
                  | [] => Forall_nil P
                  | x :: r => Forall_cons x (json_ind' x) (go r)
                  end) xs)
  | JObj kvs =>
      HObj kvs ((fix go (l : list (string * json)) : Forall (fun kv => P (snd kv)) l :=
                   match l with
                   | [] => Forall_nil _
                   | (k, x) :: r => Forall_cons (k, x) (json_ind' x) (go r)
                   end) kvs)
  end.
End JsonInd.

(** The round-trip property of one value, with any text after it
    that cannot continue a number. *)
Definition roundtrip_prop (v : json) : Prop :=
  json_wf v = true -> forall fuel rest, jsize v <= fuel -> number_continues rest = false ->
  parse_value fuel (stringify v ++ rest) = Some (v, rest).

(** The characters a number's first or last digit can be. *)
Definition plain_char (c : ascii) : Prop :=
  is_js_ws c = false /\ Ascii.eqb c "]"%char = false /\ Ascii.eqb c "}"%char = false /\
  Ascii.eqb c "`"%char = false /\ Ascii.eqb c ","%char = false.

(** The characters a serialized value can end with are neither
    whitespace nor a backtick. *)
Definition end_char (c : ascii) : Prop :=
  is_js_ws c = false /\ Ascii.eqb c "`"%char = false.

(** * AI providers: src/providers *)

Inductive AIProvider : Type := gemini | openai | claude | grok | vertex.

Definition AIProvider_eqb (a b : AIProvider) : bool :=
  match a, b with
  | gemini, gemini | openai, openai | claude, claude | grok, grok | vertex, vertex => true
  | _, _ => false
  end.

Definition AIProvider_string (p : AIProvider) : string :=
  match p with
  | gemini => "gemini" | openai => "openai" | claude => "claude"
  | grok => "grok" | vertex => "vertex"
  end.

(** A constructed adapter: its readonly [name] and [model]. *)
Record provider_inst : Type := mkProvider { name : AIProvider; model : string }.

(** The [DEFAULT_MODEL] constant of each provider file. *)
Definition DEFAULT_MODEL (p : AIProvider) : string :=
  match p with
  | gemini => "gemini-1.5-flash"
  | openai => "gpt-4o"
  | claude => "claude-sonnet-4-20250514"
  | grok => "grok-2-vision-1212"
  | vertex => "gemini-2.0-flash"
  end.

(** [constructor.name] of each adapter class. *)
Definition class_name (p : AIProvider) : string :=
  match p with
  | gemini => "GeminiProvider" | openai => "OpenAIProvider" | claude => "ClaudeProvider"
  | grok => "GrokProvider" | vertex => "VertexProvider"
  end.

(** [x || dflt] on an optional string: [undefined] and [''] are falsy. *)
Definition or_default (x : option string) (dflt : string) : string :=
  match x with
  | Some s => if String.eqb s EmptyString then dflt else s
  | None => dflt
  end.

(** [BaseProvider]'s constructor: [!apiKey || apiKey.trim() === ''] throws. *)
Definition BaseProvider_check (p : AIProvider) (apiKey : string) : outcome unit :=
  if String.eqb apiKey EmptyString || String.eqb (trim apiKey) EmptyString
  then Rejected (ErrorObj ("API key is required for " ++ class_name p))
  else Ok tt.

(** [new XProvider(apiKey, model)]: [super(apiKey)], then
    [this.model = model || DEFAULT_MODEL]; [VertexProvider] passes ['vertex']
    to [super]. *)
Definition new_provider (p : AIProvider) (apiKey : string) (model : option string)
  : outcome provider_inst :=
  match BaseProvider_check p apiKey with
  | Rejected e => Rejected e
  | Ok _ => Ok (mkProvider p (or_default model (DEFAULT_MODEL p)))
  end.

Record VertexConfig : Type := mkVertexConfig { project : string; location : string }.

Record OcrConfig : Type := mkOcrConfig {
  config_provider : AIProvider;
  config_apiKey : option string;
  config_model : option string;
  config_vertexConfig : option VertexConfig
}.

Definition truthy_str (x : option string) : bool :=
  match x with Some s => negb (String.eqb s EmptyString) | None => false end.

(** [OcrAI.createProvider]. *)
Definition createProvider (config : OcrConfig) : outcome provider_inst :=
  let key := match config_apiKey config with Some k => k | None => EmptyString end in
  match config_provider config with
  | gemini =>
      if negb (truthy_str (config_apiKey config))
      then Rejected (ErrorObj "API key is required for Gemini provider")
      else new_provider gemini key (config_model config)
  | openai =>
      if negb (truthy_str (config_apiKey config))
      then Rejected (ErrorObj "API key is required for OpenAI provider")
      else new_provider openai key (config_model config)
  | claude =>
      if negb (truthy_str (config_apiKey config))
      then Rejected (ErrorObj "API key is required for Claude provider")
      else new_provider claude key (config_model config)
  | grok =>
      if negb (truthy_str (config_apiKey config))
      then Rejected (ErrorObj "API key is required for Grok provider")
      else new_provider grok key (config_model config)
  | vertex =>
      match config_vertexConfig config with
      | None => Rejected (ErrorObj "vertexConfig is required for Vertex AI provider")
      | Some _ => new_provider vertex "vertex" (config_model config)
      end
  end.

(** ** Model parameters *)

(** [ModelConfig]: every field optional ([None] is [undefined]).  Numbers are
    rationals; the builders only copy them. *)
Record ModelConfig : Type := mkModelConfig {
  temperature : option Q;
  maxTokens : option Q;
  topP : option Q;
  topK : option Q;
  stopSequences : option (list string)
}.

(** A value placed in a request object. *)
Inductive param : Type :=
| PNum (q : Q)
| PStrs (l : list string)
| PStr (s : string)
| PJson (v : json).

(** [obj[k] = v] on an object built by assignment: an existing key keeps its
    place, a new one goes last. *)
Fixpoint put {V : Type} (o : list (string * V)) (k : string) (v : V) : list (string * V) :=
  match o with
  | [] => [(k, v)]
  | (k', v') :: rest => if String.eqb k k' then (k', v) :: rest else (k', v') :: put rest k v
  end.

Fixpoint lookup {V : Type} (o : list (string * V)) (k : string) : option V :=
  match o with
  | [] => None
  | (k', v) :: rest => if String.eqb k k' then Some v else lookup rest k
  end.

(** [modelConfig?.field] *)
Definition mc_get {T : Type} (f : ModelConfig -> option T) (mc : option ModelConfig)
  : option T :=
  match mc with Some c => f c | None => None end.

(** [if (x !== undefined) options.k = x] *)
Definition set_if {T : Type} (o : list (string * param)) (k : string) (x : option T)
  (to : T -> param) : list (string * param) :=
  match x with Some v => put o k (to v) | None => o end.

(** [GeminiProvider.buildGenerationConfig(modelConfig, defaults)]. *)
Definition gemini_buildGenerationConfig (mc : option ModelConfig)
  (defaults : list (string * param)) : list (string * param) :=
  let config := defaults in
  let config := set_if config "temperature" (mc_get temperature mc) PNum in
  let config := set_if config "maxOutputTokens" (mc_get maxTokens mc) PNum in
  let config := set_if config "topP" (mc_get topP mc) PNum in
  let config := set_if config "topK" (mc_get topK mc) PNum in
  let config := set_if config "stopSequences" (mc_get stopSequences mc) PStrs in
  config.

(** [VertexProvider.buildGenerationConfig(modelConfig, defaults)]. *)
Definition vertex_buildGenerationConfig (mc : option ModelConfig)
  (defaults : list (string * param)) : list (string * param) :=
  let config := defaults in
  let config := set_if config "temperature" (mc_get temperature mc) PNum in
  let config := set_if config "maxOutputTokens" (mc_get maxTokens mc) PNum in
  let config := set_if config "topP" (mc_get topP mc) PNum in
  let config := set_if config "topK" (mc_get topK mc) PNum in
  let config := set_if config "stopSequences" (mc_get stopSequences mc) PStrs in
  config.

Definition tokens_default : Q := inject_Z 16384.

(** [OpenAIProvider.buildCompletionOptions(modelConfig)] for [this.model]. *)
Definition openai_buildCompletionOptions (model : string) (mc : option ModelConfig)
  : list (string * param) :=
  let options := [] in
  let useMaxCompletionTokens :=
    starts_with "gpt-5" model || starts_with "o1" model || starts_with "o3" model in
  let tokenParam := if useMaxCompletionTokens then "max_completion_tokens" else "max_tokens" in
  let options :=
    put options tokenParam
        (PNum (match mc_get maxTokens mc with Some n => n | None => tokens_default end)) in
  let options := set_if options "temperature" (mc_get temperature mc) PNum in
  let options := set_if options "top_p" (mc_get topP mc) PNum in
  let options := set_if options "stop" (mc_get stopSequences mc) PStrs in
  options.

(** [GrokProvider.buildCompletionOptions(modelConfig)]. *)
Definition grok_buildCompletionOptions (mc : option ModelConfig) : list (string * param) :=
  let options := [("max_tokens", PNum tokens_default)] in
  let options := set_if options "temperature" (mc_get temperature mc) PNum in
  let options := set_if options "max_tokens" (mc_get maxTokens mc) PNum in
  let options := set_if options "top_p" (mc_get topP mc) PNum in
  let options := set_if options "stop" (mc_get stopSequences mc) PStrs in
  options.

(** [ClaudeProvider.buildMessageOptions(modelConfig)]. *)
Definition claude_buildMessageOptions (mc : option ModelConfig) : list (string * param) :=
  let options := [("max_tokens", PNum tokens_default)] in
  let options := set_if options "temperature" (mc_get temperature mc) PNum in
  let options := set_if options "max_tokens" (mc_get maxTokens mc) PNum in
  let options := set_if options "top_p" (mc_get topP mc) PNum in
  let options := set_if options "top_k" (mc_get topK mc) PNum in
  let options := set_if options "stop_sequences" (mc_get stopSequences mc) PStrs in
  options.

(** Serializing a request drops the properties whose value is [undefined]. *)
Fixpoint defined_fields (o : list (string * option param)) : list (string * param) :=
  match o with
  | [] => []
  | (k, Some v) :: rest => (k, v) :: defined_fields rest
  | (k, None) :: rest => defined_fields rest
  end.

(** The parameters of Claude's [messages.create] request, which names each
    option explicitly ([temperature: messageOptions.temperature], ...). *)
Definition claude_request_params (mc : option ModelConfig) : list (string * param) :=
  let messageOptions := claude_buildMessageOptions mc in
  defined_fields
    [("max_tokens", lookup messageOptions "max_tokens");
     ("temperature", lookup messageOptions "temperature");
     ("top_p", lookup messageOptions "top_p");
     ("top_k", lookup messageOptions "top_k");
     ("stop_sequences", lookup messageOptions "stop_sequences")].

(** The generation parameters of the request an adapter sends ([model],
    [messages] and the prompt aside), for a text ([json_mode = false]) or a
    JSON extraction. *)
Definition request_params (pv : provider_inst) (json_mode : bool) (mc : option ModelConfig)
  : list (string * param) :=
  match name pv with
  | gemini =>
      gemini_buildGenerationConfig mc
        (if json_mode then [("responseMimeType", PStr "application/json")] else [])
  | vertex =>
      vertex_buildGenerationConfig mc
        (if json_mode then [("responseMimeType", PStr "application/json")] else [])
  | openai =>
      (openai_buildCompletionOptions (model pv) mc
       ++ (if json_mode then [("response_format", PJson (JObj [("type", JStr "json_object")]))]
           else []))%list
  | grok => grok_buildCompletionOptions mc
  | claude => claude_request_params mc
  end.

(** * File loading: src/loaders/file.loader.ts *)

(** The value of [obj[key]] on an object literal: an own property, a member
    inherited from [Object.prototype], or [undefined]. *)
Inductive jsval : Type :=
| JSUndefined
| JSString (s : string)
| JSProto (member : string).

Definition truthy (v : jsval) : bool :=
  match v with
  | JSUndefined => false
  | JSString s => negb (String.eqb s EmptyString)
  | JSProto _ => true
  end.

(** The properties every object literal inherits from [Object.prototype]. *)
Definition object_prototype_members : list string :=
  ["constructor"; "__proto__"; "__defineGetter__"; "__defineSetter__";
   "__lookupGetter__"; "__lookupSetter__"; "hasOwnProperty"; "isPrototypeOf";
   "propertyIsEnumerable"; "toLocaleString"; "toString"; "valueOf"].

Definition js_get (o : list (string * string)) (k : string) : jsval :=
  match lookup o k with
  | Some v => JSString v
  | None =>
      if existsb (String.eqb k) object_prototype_members then JSProto k else JSUndefined
  end.

(** [String(v)] / [`${v}`]: [Object.prototype] prints as [[object Object]],
    its methods as native functions ([constructor] is [Object]). *)
Definition js_to_string (v : jsval) : string :=
  match v with
  | JSUndefined => "undefined"
  | JSString s => s
  | JSProto m =>
      if String.eqb m "__proto__" then "[object Object]"
      else "function " ++ (if String.eqb m "constructor" then "Object" else m)
           ++ "() { [native code] }"
  end.

Definition MIME_TO_FILE_TYPE : list (string * string) :=
  [("application/pdf", "pdf"); ("image/jpeg", "image"); ("image/png", "image");
   ("image/gif", "image"); ("image/webp", "image"); ("image/bmp", "image");
   ("image/tiff", "image"); ("text/plain", "text"); ("text/markdown", "text");
   ("text/csv", "text"); ("application/json", "text"); ("application/xml", "text");
   ("text/html", "text")].

Definition MIME_TYPES : list (string * string) :=
  [(".pdf", "application/pdf");
   (".jpg", "image/jpeg"); (".jpeg", "image/jpeg"); (".png", "image/png");
   (".gif", "image/gif"); (".webp", "image/webp"); (".bmp", "image/bmp");
   (".tiff", "image/tiff"); (".tif", "image/tiff");
   (".txt", "text/plain"); (".md", "text/markdown"); (".csv", "text/csv");
   (".json", "application/json"); (".xml", "application/xml");
   (".html", "text/html"); (".htm", "text/html")].

Definition FILE_TYPE_CATEGORIES : list (string * string) :=
  [(".pdf", "pdf");
   (".jpg", "image"); (".jpeg", "image"); (".png", "image"); (".gif", "image");
   (".webp", "image"); (".bmp", "image"); (".tiff", "image"); (".tif", "image");
   (".txt", "text"); (".md", "text"); (".csv", "text"); (".json", "text");
   (".xml", "text"); (".html", "text"); (".htm", "text")].

(** [String.prototype.toLowerCase] on code units 0..255. *)
Definition to_lower_char (c : ascii) : ascii :=
  let n := nat_of_ascii c in
  if (Nat.leb 65 n && Nat.leb n 90) || (Nat.leb 192 n && Nat.leb n 222 && negb (Nat.eqb n 215))
  then ascii_of_nat (n + 32) else c.

Fixpoint toLowerCase (s : string) : string :=
  match s with
  | EmptyString => EmptyString
  | String c r => String (to_lower_char c) (toLowerCase r)
  end.

Definition slash : ascii := "/"%char.
Definition dot : ascii := "."%char.

Fixpoint drop_while (p : ascii -> bool) (l : list ascii) : list ascii :=
  match l with
  | [] => []
  | c :: r => if p c then drop_while p r else l
  end.

Fixpoint take_while (p : ascii -> bool) (l : list ascii) : list ascii :=
  match l with
  | [] => []
  | c :: r => if p c then c :: take_while p r else []
  end.

(** [path.basename(p)] (POSIX): the last segment, trailing slashes ignored. *)
Definition basename (p : string) : string :=
  let l := drop_while (Ascii.eqb slash) (rev (list_ascii_of_string p)) in
  string_of_list_ascii (rev (take_while (fun c => negb (Ascii.eqb c slash)) l)).

(** [path.dirname(p)] (POSIX). *)
Definition dirname (p : string) : string :=
  let l := drop_while (Ascii.eqb slash) (rev (list_ascii_of_string p)) in
  let l := drop_while (fun c => negb (Ascii.eqb c slash)) l in
  match l with
  | [] => "."
  | _ =>
      match drop_while (Ascii.eqb slash) l with
      | [] => "/"
      | l' => string_of_list_ascii (rev l')
      end
  end.

(** Index of the last ['.'] of a string. *)
Fixpoint last_dot (s : string) (i : nat) (acc : option nat) : option nat :=
  match s with
  | EmptyString => acc
  | String c r => last_dot r (S i) (if Ascii.eqb c dot then Some i else acc)
  end.

(** [path.extname(p)] (POSIX): from the last ['.'] of the last segment, unless
    that dot starts the segment or the segment is [..]. *)
Definition extname (p : string) : string :=
  let b := basename p in
  match last_dot b 0 None with
  | None | Some 0 => EmptyString
  | Some i => if String.eqb b ".." then EmptyString else substring i (String.length b - i) b
  end.

(** [str.split(c)[0]] and [str.split(c)[1]]. *)
Fixpoint before_char (c : ascii) (s : string) : string :=
  match s with
  | EmptyString => EmptyString
  | String d r => if Ascii.eqb c d then EmptyString else String d (before_char c r)
  end.

Fixpoint after_char (c : ascii) (s : string) : string :=
  match s with
  | EmptyString => EmptyString
  | String d r => if Ascii.eqb c d then r else after_char c r
  end.

Fixpoint includes_char (c : ascii) (s : string) : bool :=
  match s with
  | EmptyString => false
  | String d r => Ascii.eqb c d || includes_char c r
  end.

(** [s.replace(/[quotes]/g, '')]: drops every single and double quote. *)
Fixpoint remove_quotes (s : string) : string :=
  match s with
  | EmptyString => EmptyString
  | String d r =>
      if Ascii.eqb d "'"%char || Ascii.eqb d dq then remove_quotes r else String d (remove_quotes r)
  end.

(** [isUrl] *)
Definition isUrl (str : string) : bool :=
  starts_with "http://" str || starts_with "https://" str.

(** [FileInfo]; the [base64] copy of the content is left out. *)
Record FileInfo : Type := mkFileInfo {
  fi_path : string;
  fi_name : string;
  fi_type : jsval;
  fi_mimeType : jsval;
  fi_size : nat;
  fi_content : string
}.

(** What [fs.stat] reports. *)
Record Stats : Type := mkStats { isFile : bool; stat_size : nat }.

(** The parts of a [fetch] response the loader reads. *)
Record Response : Type := mkResponse {
  resp_ok : bool;
  resp_status : Z;
  resp_statusText : string;
  resp_content_type : option string;
  resp_content_disposition : option string
}.

(** * The orchestrator: src/ocr.ts *)

Record ExtractionOptions : Type := mkOptions {
  format : option string;
  schema : option json;
  outputPath : option string;
  modelConfig : option ModelConfig
}.

Record Metadata : Type := mkMetadata {
  md_provider : AIProvider;
  md_model : string;
  md_fileType : jsval;
  md_fileName : string;
  md_processingTimeMs : Z
}.

Inductive ExtractionResult : Type :=
| TextSuccess (content : string) (metadata : Metadata)
| JsonSuccess (data : json) (metadata : Metadata)
| Failure (error : string) (code : string).

(** The fields of an [OcrAI] instance. *)
Record ocr_state : Type := mkState { config : OcrConfig; provider : provider_inst }.

(** ** Awaited calls and programs *)

(** The asynchronous operations the code awaits; each one resolves with a value
    of its type or rejects.  [Backend pv params] is the adapter's request to
    its service, answered by the response text. *)
Inductive call : Type -> Type :=
| FsAccess (path : string) : call unit
| FsStat (path : string) : call Stats
| FsReadFile (path : string) : call string
| Fetch (url : string) : call Response
| ArrayBuffer (url : string) : call string
| Backend (pv : provider_inst) (params : list (string * param)) : call string
| Mkdir (dir : string) : call unit
| WriteFile (path : string) (content : string) : call unit.

Definition is_backend {X : Type} (c : call X) : bool :=
  match c with Backend _ _ => true | _ => false end.

(** An [async] computation: it returns, throws (its promise rejects), reads
    [this.provider] or [Date.now()] synchronously, or awaits a call. *)
Inductive prog (A : Type) : Type :=
| Ret (a : A)
| Throw (e : js_error)
| ReadProvider (k : provider_inst -> prog A)
| ReadClock (k : Z -> prog A)
| Await (X : Type) (c : call X) (k : outcome X -> prog A).
Arguments Ret {A} a.
Arguments Throw {A} e.
Arguments ReadProvider {A} k.
Arguments ReadClock {A} k.
Arguments Await {A X} c k.

Fixpoint bind {A B : Type} (p : prog A) (f : A -> prog B) : prog B :=
  match p with
  | Ret a => f a
  | Throw e => Throw e
  | ReadProvider k => ReadProvider (fun pv => bind (k pv) f)
  | ReadClock k => ReadClock (fun t => bind (k t) f)
  | Await c k => Await c (fun o => bind (k o) f)
  end.

Notation "'let*' x ':=' p 'in' q" := (bind p (fun x => q))
  (at level 200, x name, p at level 100, q at level 200).

(** [try { p } catch (e) { h(e) }] *)
Fixpoint catch {A : Type} (p : prog A) (h : js_error -> prog A) : prog A :=
  match p with
  | Ret a => Ret a
  | Throw e => h e
  | ReadProvider k => ReadProvider (fun pv => catch (k pv) h)
  | ReadClock k => ReadClock (fun t => catch (k t) h)
  | Await c k => Await c (fun o => catch (k o) h)
  end.

Definition await {X : Type} (c : call X) : prog X :=
  Await c (fun o => match o with Ok x => Ret x | Rejected e => Throw e end).

Definition lift {A : Type} (o : outcome A) : prog A :=
  match o with Ok a => Ret a | Rejected e => Throw e end.

Definition throw_error {A : Type} (msg : string) : prog A := Throw (ErrorObj msg).

Definition this_provider : prog provider_inst := ReadProvider Ret.

Definition date_now : prog Z := ReadClock Ret.

(** ** Adapters *)

(** [supportsFileType]: [['pdf', 'image', 'text'].includes(type)], in
    [BaseProvider] and again in [ClaudeProvider]'s override. *)
Definition includes_type (l : list string) (t : jsval) : bool :=
  match t with JSString s => existsb (String.eqb s) l | _ => false end.

Definition supportsFileType (pv : provider_inst) (t : jsval) : bool :=
  match name pv with
  | claude => includes_type ["pdf"; "image"; "text"] t
  | _ => includes_type ["pdf"; "image"; "text"] t
  end.

Definition opt_modelConfig (options : option ExtractionOptions) : option ModelConfig :=
  match options with Some o => modelConfig o | None => None end.

(** [extractText]: the service's text ([|| ''] already applied). *)
Definition extractText (pv : provider_inst) (file : FileInfo)
  (options : option ExtractionOptions) : prog string :=
  let* text := await (Backend pv (request_params pv false (opt_modelConfig options))) in
  Ret text.

(** [extractJson]: [|| '{}'] on the service's text (Gemini calls
    [response.text()] and keeps it), then [parseJsonResponse]. *)
Definition extractJson (pv : provider_inst) (file : FileInfo) (schema : json)
  (options : option ExtractionOptions) : prog json :=
  let* text := await (Backend pv (request_params pv true (opt_modelConfig options))) in
  let text := match name pv with
              | gemini => text
              | _ => if String.eqb text EmptyString then "{}" else text
              end in
  lift (parseJsonResponse text).

(** [JSON.stringify(v, null, 2)] *)
Fixpoint spaces (n : nat) : string :=
  match n with O => EmptyString | S m => String " "%char (spaces m) end.

Fixpoint stringify_indent (ind : nat) (v : json) : string :=
  match v with
  | JArr [] => "[]"
  | JArr xs =>
      "[" ++ nl
      ++ String.concat ("," ++ nl)
           (map (fun x => spaces (ind + 2) ++ stringify_indent (ind + 2) x) xs)
      ++ nl ++ spaces ind ++ "]"
  | JObj [] => "{}"
  | JObj kvs =>
      "{" ++ nl
      ++ String.concat ("," ++ nl)
           (map (fun '(k, x) => spaces (ind + 2) ++ quote k ++ ": " ++ stringify_indent (ind + 2) x)
                kvs)
      ++ nl ++ spaces ind ++ "}"
  | _ => stringify v
  end.

Section Program.

(** [path.resolve] (it depends on the working directory), [Buffer.from(s,
    'base64')], [new URL(url).pathname] and [match[1]] of the
    Content-Disposition pattern are Node's and stay abstract. *)
Variable resolve : string -> string.
Variable base64_decode : string -> string.
Variable url_pathname : string -> string.
Variable disposition_filename : string -> option string.

Definition supported_list : string := String.concat ", " (map fst MIME_TYPES).

(** [loadFile(filePath)] *)
Definition loadFile (filePath : string) : prog FileInfo :=
  let absolutePath := resolve filePath in
  let* _ := catch (await (FsAccess absolutePath))
             (fun _ => throw_error ("File not found: " ++ absolutePath)) in
  let* stats := await (FsStat absolutePath) in
  if negb (isFile stats) then throw_error ("Path is not a file: " ++ absolutePath) else
  let ext := toLowerCase (extname absolutePath) in
  let fileName := basename absolutePath in
  let mimeType := js_get MIME_TYPES ext in
  let fileType := js_get FILE_TYPE_CATEGORIES ext in
  if negb (truthy mimeType) || negb (truthy fileType)
  then throw_error ("Unsupported file type: " ++ ext ++ ". Supported types: " ++ supported_list)
  else
  let* content := await (FsReadFile absolutePath) in
  Ret (mkFileInfo absolutePath fileName fileType mimeType (stat_size stats) content).

(** [loadFileFromBuffer(buffer, fileName, mimeType)] *)
Definition loadFileFromBuffer (buffer : string) (fileName : string) (mimeType : option string)
  : prog FileInfo :=
  let ext := toLowerCase (extname fileName) in
  let detectedMimeType :=
    if truthy_str mimeType then JSString (or_default mimeType EmptyString)
    else js_get MIME_TYPES ext in
  let fileType := js_get FILE_TYPE_CATEGORIES ext in
  if negb (truthy detectedMimeType) || negb (truthy fileType)
  then throw_error ("Unsupported file type: " ++ ext ++ ". Supported types: " ++ supported_list)
  else Ret (mkFileInfo EmptyString fileName fileType detectedMimeType (String.length buffer) buffer).

(** [loadFileFromBase64(base64, fileName, mimeType)] *)
Definition loadFileFromBase64 (base64 : string) (fileName : string) (mimeType : option string)
  : prog FileInfo :=
  let base64Data :=
    if includes_char ","%char base64 then before_char ","%char (after_char ","%char base64)
    else base64 in
  let buffer := base64_decode base64Data in
  let ext := toLowerCase (extname fileName) in
  let detectedMimeType :=
    if truthy_str mimeType then JSString (or_default mimeType EmptyString)
    else js_get MIME_TYPES ext in
  let fileType := js_get FILE_TYPE_CATEGORIES ext in
  if negb (truthy detectedMimeType) || negb (truthy fileType)
  then throw_error ("Unsupported file type: " ++ ext ++ ". Supported types: " ++ supported_list)
  else Ret (mkFileInfo EmptyString fileName fileType detectedMimeType (String.length buffer) buffer).

(** [loadFileFromUrl(url)] *)
Definition loadFileFromUrl (url : string) : prog FileInfo :=
  let* response := await (Fetch url) in
  if negb (resp_ok response)
  then throw_error ("Failed to fetch URL: " ++ show_Z (resp_status response) ++ " "
                    ++ resp_statusText response)
  else
  let contentType :=
    match resp_content_type response with
    | Some h => before_char ";"%char h
    | None => EmptyString
    end in
  let* buffer := await (ArrayBuffer url) in
  let fileName :=
    match resp_content_disposition response with
    | Some cd =>
        if String.eqb cd EmptyString then EmptyString
        else match disposition_filename cd with
             | Some m => remove_quotes m
             | None => EmptyString
             end
    | None => EmptyString
    end in
  let fileName :=
    if String.eqb fileName EmptyString
    then or_default (Some (basename (url_pathname url))) "download"
    else fileName in
  let fileType := js_get MIME_TO_FILE_TYPE contentType in
  let mimeType := JSString contentType in
  let '(fileType, mimeType) :=
    if negb (truthy fileType)
    then let ext := toLowerCase (extname fileName) in
         (js_get FILE_TYPE_CATEGORIES ext, js_get MIME_TYPES ext)
    else (fileType, mimeType) in
  if negb (truthy fileType) || negb (truthy mimeType)
  then throw_error ("Unsupported file type from URL. Content-Type: " ++ contentType
                    ++ ", Filename: " ++ fileName)
  else Ret (mkFileInfo url fileName fileType mimeType (String.length buffer) buffer).

(** [saveToFile(filePath, content)] *)
Definition saveToFile (filePath : string) (content : string) : prog unit :=
  let absolutePath := resolve filePath in
  let dir := dirname absolutePath in
  let* _ := await (Mkdir dir) in
  await (WriteFile absolutePath content).

(** [OcrAI.createErrorResult(error)] *)
Definition createErrorResult (error : js_error) : ExtractionResult :=
  let message := match error with ErrorObj m => m | Thrown r => r end in
  Failure message "EXTRACTION_ERROR".

(** [OcrAI.processExtraction(file, options, startTime)]: every [this.provider]
    is read where the code reads it. *)
Definition processExtraction (file : FileInfo) (options : option ExtractionOptions)
  (startTime : Z) : prog ExtractionResult :=
  let format := or_default (match options with Some o => format o | None => None end) "text" in
  let* pv := this_provider in
  if negb (supportsFileType pv (fi_type file))
  then Ret (Failure ("Provider " ++ AIProvider_string (name pv)
                     ++ " does not support file type: " ++ js_to_string (fi_type file))
                    "UNSUPPORTED_FILE_TYPE")
  else
  catch
    (if String.eqb format "json" then
       match options with
       | Some o =>
           match schema o with
           | None => Ret (Failure "Schema is required for JSON extraction" "MISSING_SCHEMA")
           | Some sch =>
               let* pv := this_provider in
               let* providerResult := extractJson pv file sch options in
               let* pv1 := this_provider in
               let* pv2 := this_provider in
               let* now := date_now in
               let result :=
                 JsonSuccess providerResult
                   (mkMetadata (name pv1) (model pv2) (fi_type file) (fi_name file)
                               (now - startTime)) in
               let* _ := (if truthy_str (outputPath o)
                     then saveToFile (or_default (outputPath o) EmptyString)
                                     (stringify_indent 0 providerResult)
                     else Ret tt) in
               Ret result
           end
       | None => Ret (Failure "Schema is required for JSON extraction" "MISSING_SCHEMA")
       end
     else
       let* pv := this_provider in
       let* providerResult := extractText pv file options in
       let* pv1 := this_provider in
       let* pv2 := this_provider in
       let* now := date_now in
       let result :=
         TextSuccess providerResult
           (mkMetadata (name pv1) (model pv2) (fi_type file) (fi_name file) (now - startTime)) in
       let outputPath := match options with Some o => outputPath o | None => None end in
       let* _ := (if truthy_str outputPath
             then saveToFile (or_default outputPath EmptyString) providerResult
             else Ret tt) in
       Ret result)
    (fun error => Ret (createErrorResult error)).

(** [try { const file = <load>; return this.processExtraction(...) } catch
    (error) { return this.createErrorResult(error) }]: the promise of
    [processExtraction] is returned, not awaited, so the [catch] covers the
    load only. *)
Definition try_load (load : prog FileInfo) (options : option ExtractionOptions)
  (startTime : Z) : prog ExtractionResult :=
  let* r := catch (let* file := load in Ret (inl file))
             (fun error => Ret (inr (createErrorResult error))) in
  match r with
  | inl file => processExtraction file options startTime
  | inr result => Ret result
  end.

(** [OcrAI.extract(source, options)] *)
Definition extract (source : string) (options : option ExtractionOptions)
  : prog ExtractionResult :=
  let* startTime := date_now in
  try_load (if isUrl source then loadFileFromUrl source else loadFile source)
           options startTime.

(** [OcrAI.extractFromBuffer(buffer, fileName, options)] *)
Definition extractFromBuffer (buffer : string) (fileName : string)
  (options : option ExtractionOptions) : prog ExtractionResult :=
  let* startTime := date_now in
  try_load (loadFileFromBuffer buffer fileName None) options startTime.

(** [OcrAI.extractFromBase64(base64, fileName, options)] *)
Definition extractFromBase64 (base64 : string) (fileName : string)
  (options : option ExtractionOptions) : prog ExtractionResult :=
  let* startTime := date_now in
  try_load (loadFileFromBase64 base64 fileName None) options startTime.

End Program.

(** ** The instance and its methods *)

(** [new OcrAI(config)] *)
Definition new_OcrAI (config : OcrConfig) : outcome ocr_state :=
  match createProvider config with
  | Ok pv => Ok (mkState config pv)
  | Rejected e => Rejected e
  end.

Definition getProvider (s : ocr_state) : AIProvider := name (provider s).

Definition getModel (s : ocr_state) : string := model (provider s).

(** [setProvider(provider, apiKey, model)]: [this.config] is replaced first, so
    a throwing [createProvider] leaves the new config with the old adapter. *)
Definition setProvider (s : ocr_state) (p : AIProvider) (apiKey : string)
  (model : option string) : outcome unit * ocr_state :=
  let config := mkOcrConfig p (Some apiKey) model None in
  match createProvider config with
  | Ok pv => (Ok tt, mkState config pv)
  | Rejected e => (Rejected e, mkState config (provider s))
  end.

(** ** Running a program *)

(** The outside world: the clock and the settlement of each awaited call. *)
Record handler : Type := mkHandler {
  clock : Z;
  answer : forall X : Type, call X -> outcome X
}.

(** What other code does to the instance while a call is awaited. *)
Definition scheduler : Type := forall X : Type, call X -> ocr_state -> ocr_state.

Definition no_interleaving : scheduler := fun _ _ s => s.

Fixpoint run {A : Type} (h : handler) (sched : scheduler) (s : ocr_state) (p : prog A)
  : outcome A :=
  match p with
  | Ret a => Ok a
  | Throw e => Rejected e
  | ReadProvider k => run h sched s (k (provider s))
  | ReadClock k => run h sched s (k (clock h))
  | Await c k => run h sched (sched _ c s) (k (answer h _ c))
  end.

(** Whether the run reaches an adapter's request to its service. *)
Fixpoint calls_backend {A : Type} (h : handler) (sched : scheduler) (s : ocr_state)
  (p : prog A) : bool :=
  match p with
  | Ret _ | Throw _ => false
  | ReadProvider k => calls_backend h sched s (k (provider s))
  | ReadClock k => calls_backend h sched s (k (clock h))
  | Await c k => is_backend c || calls_backend h sched (sched _ c s) (k (answer h _ c))
  end.

(** A program that settles without rejecting, whatever the reads and calls
    return. *)
Fixpoint never_throws {A : Type} (p : prog A) : Prop :=
  match p with
  | Ret _ => True
  | Throw _ => False
  | ReadProvider k => forall pv, never_throws (k pv)
  | ReadClock k => forall t, never_throws (k t)
  | Await c k => forall o, never_throws (k o)
  end.

(** A program none of whose runs issues a request to a service. *)
Fixpoint never_backend {A : Type} (p : prog A) : Prop :=
  match p with
  | Ret _ | Throw _ => True
  | ReadProvider k => forall pv, never_backend (k pv)
  | ReadClock k => forall t, never_backend (k t)
  | Await c k => is_backend c = false /\ forall o, never_backend (k o)
  end.

Definition result_code (r : outcome ExtractionResult) : option string :=
  match r with Ok (Failure _ code) => Some code | _ => None end.

(** ** Words of the claims *)

(** The fields of a [ModelConfig]. *)
Inductive mc_field : Type :=
| F_temperature | F_maxTokens | F_topP | F_topK | F_stopSequences.

(** The caller's value of a field, as a request would carry it; [None] when
    the caller left it unset. *)
Definition field_param (mc : option ModelConfig) (f : mc_field) : option param :=
  match f with
  | F_temperature => option_map PNum (mc_get temperature mc)
  | F_maxTokens => option_map PNum (mc_get maxTokens mc)
  | F_topP => option_map PNum (mc_get topP mc)
  | F_topK => option_map PNum (mc_get topK mc)
  | F_stopSequences => option_map PStrs (mc_get stopSequences mc)
  end.

(** The prefix rule for the name of the token-limit parameter. *)
Definition uses_completion_tokens (model : string) : bool :=
  starts_with "gpt-5" model || starts_with "o1" model || starts_with "o3" model.

(** The name under which an adapter sends the token limit. *)
Definition token_param_name (pv : provider_inst) : string :=
  match name pv with
  | gemini | vertex => "maxOutputTokens"
  | openai => if uses_completion_tokens (model pv) then "max_completion_tokens" else "max_tokens"
  | grok | claude => "max_tokens"
  end.

(** The translation table: the request key of each caller field, per
    adapter ([None]: the adapter does not forward it). *)
Definition field_key (pv : provider_inst) (f : mc_field) : option string :=
  match f, name pv with
  | F_maxTokens, _ => Some (token_param_name pv)
  | F_temperature, _ => Some "temperature"
  | F_topP, (gemini | vertex) => Some "topP"
  | F_topP, _ => Some "top_p"
  | F_topK, (gemini | vertex) => Some "topK"
  | F_topK, claude => Some "top_k"
  | F_topK, _ => None
  | F_stopSequences, (gemini | vertex) => Some "stopSequences"
  | F_stopSequences, claude => Some "stop_sequences"
  | F_stopSequences, _ => Some "stop"
  end.

(** The entry a JSON extraction adds by itself. *)
Definition json_mode_param (pv : provider_inst) : option (string * param) :=
  match name pv with
  | gemini | vertex => Some ("responseMimeType", PStr "application/json")
  | openai => Some ("response_format", PJson (JObj [("type", JStr "json_object")]))
  | grok | claude => None
  end.

(** The adapters that send a token limit when the caller sets none. *)
Definition has_default_ceiling (p : AIProvider) : bool :=
  match p with openai | grok | claude => true | gemini | vertex => false end.

Definition has_key {V : Type} (o : list (string * V)) (k : string) : bool :=
  match lookup o k with Some _ => true | None => false end.

(** Credentials the constructor accepts: a key that is not blank, or a
    [vertexConfig] for Vertex AI. *)
Definition valid_credentials (config : OcrConfig) : bool :=
  match config_provider config with
  | vertex => match config_vertexConfig config with Some _ => true | None => false end
  | _ =>
      match config_apiKey config with
      | Some k => negb (String.eqb (trim k) EmptyString)
      | None => false
      end
  end.

(** The documented default model of each provider. *)
Definition documented_default (p : AIProvider) : string :=
  match p with
  | gemini => "gemini-1.5-flash"
  | openai => "gpt-4o"
  | claude => "claude-sonnet-4-20250514"
  | grok => "grok-2-vision-1212"
  | vertex => "gemini-2.0-flash"
  end.

(** ** Concrete runs *)

(** An instance configured for Gemini. *)
Definition demo_state : ocr_state :=
  mkState (mkOcrConfig gemini (Some "key") None None) (mkProvider gemini "gemini-1.5-flash").

(** A world where every call succeeds: the path is a regular file, a fetch
    answers [resp], and a service answers with the name of the adapter that
    called it.  The clock stands still. *)
Definition demo_answer (resp : Response) (X : Type) (c : call X) : outcome X :=
  match c in call T return outcome T with
  | FsAccess _ => Ok tt
  | FsStat _ => Ok (mkStats true 5)
  | FsReadFile _ => Ok "hello"
  | Fetch _ => Ok resp
  | ArrayBuffer _ => Ok "hello"
  | Backend pv _ => Ok (AIProvider_string (name pv))
  | Mkdir _ => Ok tt
  | WriteFile _ _ => Ok tt
  end.

Definition demo_handler (resp : Response) : handler := mkHandler 0 (demo_answer resp).

Definition ok_response (contentType : string) : Response :=
  mkResponse true 200 "OK" (Some contentType) None.

(** Other code calls [setProvider('grok', key)] while a service request is
    awaited. *)
Definition reconfigure_during_backend : scheduler :=
  fun X c s => if is_backend c then snd (setProvider s grok "xai-key" None) else s.

(** ** More of the loaders: src/loaders/file.loader.ts *)

(** [getSupportedExtensions()] *)
Definition getSupportedExtensions : list string := map fst MIME_TYPES.

(** [key in obj]: an own property, or one inherited from [Object.prototype]. *)
Definition js_in (o : list (string * string)) (k : string) : bool :=
  existsb (String.eqb k) (map fst o) || existsb (String.eqb k) object_prototype_members.

(** [isExtensionSupported(ext)] *)
Definition isExtensionSupported (ext : string) : bool :=
  let normalizedExt :=
    if starts_with "." ext then toLowerCase ext else "." ++ toLowerCase ext in
  js_in MIME_TYPES normalizedExt.

(** ** Claude's image blocks *)

(** [ClaudeProvider.getMediaType(mimeType)] *)
Definition getMediaType (mimeType : string) : string :=
  let supportedTypes := ["image/jpeg"; "image/png"; "image/gif"; "image/webp"] in
  if existsb (String.eqb mimeType) supportedTypes then mimeType else "image/jpeg".

(** ** Retrying: [OcrAIPromise.extractWithRetry] *)

(** [result.success] *)
Definition success (r : ExtractionResult) : bool :=
  match r with Failure _ _ => false | _ => true end.

(** [x < y] on numbers. *)
Definition Qlt_bool (x y : Q) : bool := negb (Qle_bool y x).

(** What [extractWithRetry] does, in order: an awaited [this.ocr.extract]
    call (its index) or an awaited [setTimeout] of [ms]. *)
Inductive retry_event : Type :=
| Attempt (n : nat)
| Sleep (ms : Q).

(** The loop of [extractWithRetry], from iteration [attempt] on;
    [results n] is the result the [n]-th call of [this.ocr.extract]
    resolves to.  [lastResult = None] is [undefined]. *)
Fixpoint retry_loop (results : nat -> ExtractionResult) (retries delayMs : Q)
  (fuel attempt : nat) (lastResult : option ExtractionResult)
  : list retry_event * option ExtractionResult :=
  match fuel with
  | O => ([], lastResult)
  | S fuel' =>
      if Qle_bool (inject_Z (Z.of_nat attempt)) retries then
        let result := results attempt in
        if success result then ([Attempt attempt], Some result)
        else
          let wait :=
            if Qlt_bool (inject_Z (Z.of_nat attempt)) retries then [Sleep delayMs] else [] in
          let '(events, r) := retry_loop results retries delayMs fuel' (S attempt) (Some result) in
          (((Attempt attempt :: wait) ++ events)%list, r)
      else ([], lastResult)
  end.

(** [extractWithRetry(source, options, retries = 3, delayMs = 1000)] for a
    finite number [retries] (a [Q]): the loop runs while [attempt <= retries],
    at most [floor(retries) + 1] times, so the fuel [floor(retries) + 2]
    always ends on the loop's own test.  [retries = Infinity] is outside this
    model: there the loop ends only on a success. *)
Definition extractWithRetry (results : nat -> ExtractionResult) (retries delayMs : option Q)
  : list retry_event * option ExtractionResult :=
  let retries := match retries with Some r => r | None => inject_Z 3 end in
  let delayMs := match delayMs with Some d => d | None => inject_Z 1000 end in
  retry_loop results retries delayMs (Z.to_nat (Qfloor retries) + 2) 0 None.

(** ** Programs whose every result has a property *)

Fixpoint all_results {A : Type} (P : A -> Prop) (p : prog A) : Prop :=
  match p with
  | Ret a => P a
  | Throw _ => True
  | ReadProvider k => forall pv, all_results P (k pv)
  | ReadClock k => forall t, all_results P (k t)
  | Await c k => forall o, all_results P (k o)
  end.

(** The file types the providers accept. *)
Definition known_type (t : jsval) : bool := includes_type ["pdf"; "image"; "text"] t.

(** A result that is not the [UNSUPPORTED_FILE_TYPE] failure. *)
Definition not_unsupported (r : ExtractionResult) : Prop :=
  match r with Failure _ code => code <> "UNSUPPORTED_FILE_TYPE" | _ => True end.

(** A loaded file whose type the providers accept. *)
Definition known_file (f : FileInfo) : Prop := known_type (fi_type f) = true.

(** An ASCII letter other than [j], [n], [t] and [f]. *)
Definition letter_b (c : ascii) : bool :=
  let n := nat_of_ascii c in
  ((Nat.leb 65 n && Nat.leb n 90) || (Nat.leb 97 n && Nat.leb n 122))
  && negb (existsb (Ascii.eqb c) ["j"; "n"; "t"; "f"]%char).

(** A world given by how [fs.access] settles, what [fs.stat] reports, the
    fetch response, the service's answer and how [fs.writeFile] settles. *)
Definition world_answer (access : outcome unit) (stats : Stats) (resp : Response)
  (backend : string) (write : outcome unit) (X : Type) (c : call X) : outcome X :=
  match c in call T return outcome T with
  | FsAccess _ => access
  | FsStat _ => Ok stats
  | FsReadFile _ => Ok "hello"
  | Fetch _ => Ok resp
  | ArrayBuffer _ => Ok "hello"
  | Backend _ _ => Ok backend
  | Mkdir _ => Ok tt
  | WriteFile _ _ => write
  end.

Definition world (access : outcome unit) (stats : Stats) (resp : Response) (backend : string)
  (write : outcome unit) : handler :=
  mkHandler 0 (world_answer access stats resp backend write).


(** * Proofs *)

Example stringify_ex :
  stringify (JObj [("a", JArr [JNum 1%Z; JNull]); ("b", JStr "x")])
  = "{" ++ quote "a" ++ ":[1,null]," ++ quote "b" ++ ":" ++ quote "x" ++ "}".
Proof. reflexivity. Qed.

Example json_parse_ex :
  json_parse (stringify (JObj [("a", JArr [JNum (-12)%Z; JBool true]); ("b", JStr "x\y")]))
  = Some (JObj [("a", JArr [JNum (-12)%Z; JBool true]); ("b", JStr "x\y")]).
Proof. reflexivity. Qed.

(** ** String lemmas *)

Lemma append_nil_r (s : string) : s ++ EmptyString = s.
Proof. induction s as [|c s IH]; simpl; congruence. Qed.

Lemma append_assoc_str (a b c : string) : (a ++ b) ++ c = a ++ (b ++ c).
Proof. induction a as [|x a IH]; simpl; congruence. Qed.

Lemma length_append (a b : string) :
  String.length (a ++ b) = String.length a + String.length b.
Proof. induction a as [|x a IH]; simpl; auto. Qed.

Lemma substring_app_l (a b : string) : substring 0 (String.length a) (a ++ b) = a.
Proof. induction a as [|x a IH]; simpl; [destruct b; reflexivity | congruence]. Qed.

Lemma substring_app_r (a b : string) (m : nat) :
  substring (String.length a) m (a ++ b) = substring 0 m b.
Proof. induction a as [|x a IH]; simpl; auto. Qed.

Lemma substring_all (b : string) : substring 0 (String.length b) b = b.
Proof.
  rewrite <- (append_nil_r b) at 2. apply substring_app_l.
Qed.

Lemma substring_split (s : string) (k : nat) :
  k <= String.length s ->
  s = substring 0 k s ++ substring k (String.length s - k) s.
Proof.
  revert k; induction s as [|c s IH]; intros [|k] Hk; simpl in *.
  - reflexivity.
  - lia.
  - f_equal. symmetry. apply substring_all.
  - f_equal. apply IH. lia.
Qed.

Lemma slice_from_app (a b : string) : slice_from (String.length a) (a ++ b) = b.
Proof.
  unfold slice_from. rewrite length_append.
  replace (String.length a + String.length b - String.length a) with (String.length b) by lia.
  rewrite substring_app_r. apply substring_all.
Qed.

Lemma ends_with_app (x suf : string) : ends_with suf (x ++ suf) = true.
Proof.
  unfold ends_with. rewrite length_append.
  replace (String.length x + String.length suf - String.length suf) with (String.length x)
    by lia.
  rewrite substring_app_r, substring_all, String.eqb_refl, andb_true_r.
  apply Nat.leb_le. lia.
Qed.

Lemma ends_with_split (suf s : string) :
  ends_with suf s = true ->
  s = substring 0 (String.length s - String.length suf) s ++ suf.
Proof.
  unfold ends_with. intros H. apply andb_prop in H as [Hle Heq].
  apply Nat.leb_le in Hle. apply String.eqb_eq in Heq.
  rewrite (substring_split s (String.length s - String.length suf)) at 1 by lia.
  f_equal.
  replace (String.length s - (String.length s - String.length suf)) with (String.length suf)
    by lia.
  exact Heq.
Qed.

Lemma slice_drop_end_app (x : string) : slice_drop_end 3 (x ++ fence) = x.
Proof.
  unfold slice_drop_end. rewrite length_append. simpl (String.length fence).
  replace (String.length x + 3 - 3) with (String.length x) by lia.
  apply substring_app_l.
Qed.

Lemma app_last_inj (x y : string) (a b : ascii) :
  x ++ String a EmptyString = y ++ String b EmptyString -> a = b.
Proof.
  revert y; induction x as [|c x IH]; intros [|d y] H; simpl in H.
  - congruence.
  - injection H as _ H. destruct y; discriminate.
  - injection H as _ H. destruct x; discriminate.
  - injection H as _ H. exact (IH y H).
Qed.

Lemma trim_end_app (s t : string) (c : ascii) :
  is_js_ws c = false ->
  trim_end ((s ++ String c EmptyString) ++ t) = (s ++ String c EmptyString) ++ trim_end t.
Proof.
  intros Hc. induction s as [|a s IH]; simpl.
  - destruct (trim_end t); rewrite ?Hc; reflexivity.
  - simpl in IH. rewrite IH. destruct s; reflexivity.
Qed.

(** ** Characters of serialized values *)

Lemma json_ws_js_ws (c : ascii) : is_json_ws c = true -> is_js_ws c = true.
Proof.
  destruct c as [[] [] [] [] [] [] [] []]; cbv; intros H;
    first [discriminate H | reflexivity].
Qed.


Lemma digit_plain (c : ascii) : is_digit c = true -> plain_char c.
Proof.
  unfold plain_char.
  destruct c as [[] [] [] [] [] [] [] []]; cbv; intros H;
    first [discriminate H | repeat split].
Qed.

Lemma digit_not_minus (c : ascii) : is_digit c = true -> Ascii.eqb c "-"%char = false.
Proof. destruct c as [[] [] [] [] [] [] [] []]; cbv; intros H; first [discriminate H | reflexivity]. Qed.

Lemma uint_to_string_first (u : Decimal.uint) :
  u <> Decimal.Nil ->
  exists c s, uint_to_string u = String c s /\ is_digit c = true.
Proof. destruct u; intros H; [congruence | eexists _, _; split; reflexivity ..]. Qed.

Lemma uint_to_string_last_or_empty (u : Decimal.uint) :
  uint_to_string u = EmptyString \/
  exists s c, uint_to_string u = s ++ String c EmptyString /\ is_digit c = true.
Proof.
  induction u as [|u IH|u IH|u IH|u IH|u IH|u IH|u IH|u IH|u IH|u IH]; [left; reflexivity|..];
  right; simpl; destruct IH as [E | (s & c & E & D)]; rewrite E;
  first [ exists EmptyString; eexists; split; reflexivity
        | eexists (String _ s), c; split; [reflexivity | exact D] ].
Qed.

Lemma uint_to_string_last (u : Decimal.uint) :
  u <> Decimal.Nil ->
  exists s c, uint_to_string u = s ++ String c EmptyString /\ is_digit c = true.
Proof.
  intros H. destruct (uint_to_string_last_or_empty u) as [E|E]; [|exact E].
  destruct u; simpl in E; congruence.
Qed.

(** ** Numbers: [show_Z] is read back by [parse_number] *)

Lemma nzhead_head (d : Decimal.uint) :
  match Decimal.nzhead d with Decimal.D0 _ => False | _ => True end.
Proof. induction d; simpl; auto. Qed.

(** A positive number is printed without a leading zero. *)
Lemma pos_uint_head (p : positive) :
  match Pos.to_uint p with Decimal.Nil => False | Decimal.D0 _ => False | _ => True end.
Proof.
  pose proof (DecimalPos.Unsigned.to_of (Pos.to_uint p)) as E.
  rewrite DecimalPos.Unsigned.of_to in E. simpl in E.
  pose proof (DecimalPos.Unsigned.to_uint_nonzero p) as Hz.
  pose proof (nzhead_head (Pos.to_uint p)) as Hh.
  revert E Hz Hh. generalize (Pos.to_uint p) as d. intros d E Hz Hh.
  unfold Decimal.unorm in E.
  destruct (Decimal.nzhead d) eqn:N; try contradiction; rewrite E; try exact I.
Qed.

Lemma number_continues_digit (c : ascii) (r : string) :
  number_continues (String c r) = false -> is_digit c = false.
Proof. simpl. intros H. repeat rewrite orb_false_iff in H. tauto. Qed.

Lemma read_digits_uint (u : Decimal.uint) (rest : string) :
  number_continues rest = false -> read_digits (uint_to_string u ++ rest) = (u, rest).
Proof.
  intros Hr. induction u; simpl; try (rewrite IHu; reflexivity).
  destruct rest as [|c r]; [reflexivity|].
  apply number_continues_digit in Hr. simpl. unfold is_digit in Hr.
  destruct (digit_ctor c); [discriminate | reflexivity].
Qed.

Lemma parse_number_digits (u : Decimal.uint) (rest : string) :
  match u with Decimal.Nil => False | Decimal.D0 _ => False | _ => True end ->
  number_continues rest = false ->
  parse_number (uint_to_string u ++ rest) = Some (JNum (Z.of_N (N.of_uint u)), rest) /\
  parse_number (String "-"%char (uint_to_string u ++ rest))
  = Some (JNum (Z.opp (Z.of_N (N.of_uint u))), rest).
Proof.
  intros Hu Hr.
  destruct u; try contradiction; split; unfold parse_number; simpl;
    rewrite read_digits_uint by exact Hr; rewrite Hr; reflexivity.
Qed.

Lemma of_uint_to_uint (p : positive) : Z.of_N (N.of_uint (Pos.to_uint p)) = Zpos p.
Proof. unfold N.of_uint. rewrite DecimalPos.Unsigned.of_to. reflexivity. Qed.

Lemma parse_number_show (z : Z) (rest : string) :
  number_continues rest = false -> parse_number (show_Z z ++ rest) = Some (JNum z, rest).
Proof.
  intros Hr. destruct z as [|p|p].
  - unfold parse_number. simpl.
    pose proof (read_digits_uint Decimal.Nil rest Hr) as E. simpl in E. rewrite E, Hr.
    reflexivity.
  - simpl show_Z.
    destruct (parse_number_digits (Pos.to_uint p) rest (pos_uint_head p) Hr) as [A _].
    rewrite A, of_uint_to_uint. reflexivity.
  - simpl show_Z. simpl (String _ _ ++ rest).
    destruct (parse_number_digits (Pos.to_uint p) rest (pos_uint_head p) Hr) as [_ B].
    rewrite B, of_uint_to_uint. reflexivity.
Qed.

(** ** Strings: [quote] is read back by [parse_string_body] *)

Lemma parse_escape_char (c : ascii) (r : string) :
  parse_string_body (escape_char c ++ r) = cons_fst c (parse_string_body r).
Proof. destruct c as [[] [] [] [] [] [] [] []]; reflexivity. Qed.

Lemma parse_escape_string (s rest : string) :
  parse_string_body (escape_string s ++ String dq rest) = Some (s, rest).
Proof.
  induction s as [|c s IH]; [reflexivity|].
  simpl. rewrite append_assoc_str, parse_escape_char, IH. reflexivity.
Qed.

Lemma quote_app (s rest : string) :
  quote s ++ rest = String dq (escape_string s ++ String dq rest).
Proof. unfold quote. simpl. rewrite append_assoc_str. reflexivity. Qed.

(** ** First and last characters of a serialized value *)

Lemma show_Z_first (z : Z) :
  exists c s, show_Z z = String c s /\ (Ascii.eqb c "-"%char || is_digit c) = true
              /\ plain_char c.
Proof.
  destruct z as [|p|p]; simpl.
  - eexists _, _. split; [reflexivity|]. cbv. repeat split.
  - destruct (uint_to_string_first (Pos.to_uint p)) as (c & s & E & D).
    { pose proof (pos_uint_head p). destruct (Pos.to_uint p); congruence. }
    exists c, s. split; [exact E|]. split; [rewrite D, orb_true_r; reflexivity|].
    exact (digit_plain c D).
  - eexists _, _. split; [reflexivity|]. cbv. repeat split.
Qed.

Lemma stringify_first (v : json) :
  exists c s, stringify v = String c s /\ plain_char c.
Proof.
  destruct v as [| [] | z | s | xs | kvs]; simpl;
    try (eexists _, _; split; [reflexivity | cbv; repeat split]).
  destruct (show_Z_first z) as (c & s & E & _ & P). exists c, s. auto.
Qed.


Lemma plain_end (c : ascii) : plain_char c -> end_char c.
Proof. intros (A & _ & _ & B & _). split; assumption. Qed.

Lemma stringify_last (v : json) :
  exists s c, stringify v = s ++ String c EmptyString /\ end_char c.
Proof.
  destruct v as [| [] | [|p|p] | s | xs | kvs].
  - exists "nul", "l"%char. split; [reflexivity | cbv; split; reflexivity].
  - exists "tru", "e"%char. split; [reflexivity | cbv; split; reflexivity].
  - exists "fals", "e"%char. split; [reflexivity | cbv; split; reflexivity].
  - exists EmptyString, "0"%char. split; [reflexivity | cbv; split; reflexivity].
  - destruct (uint_to_string_last (Pos.to_uint p)) as (s & c & E & D).
    { pose proof (pos_uint_head p). destruct (Pos.to_uint p); congruence. }
    exists s, c. split; [exact E | apply plain_end; exact (digit_plain c D)].
  - destruct (uint_to_string_last (Pos.to_uint p)) as (s & c & E & D).
    { pose proof (pos_uint_head p). destruct (Pos.to_uint p); congruence. }
    exists (String "-"%char s), c. split; [simpl; rewrite E; reflexivity | apply plain_end; exact (digit_plain c D)].
  - exists (String dq (escape_string s)), dq. split; [reflexivity | cbv; split; reflexivity].
  - exists (String "["%char (String.concat "," (map stringify xs))), "]"%char.
    split; [reflexivity | cbv; split; reflexivity].
  - exists (String "{"%char (String.concat ","
              (map (fun '(k, x) => quote k ++ ":" ++ stringify x) kvs))), "}"%char.
    split; [reflexivity | cbv; split; reflexivity].
Qed.

Lemma plain_not_json_ws (c : ascii) : plain_char c -> is_json_ws c = false.
Proof.
  intros [H _]. destruct (is_json_ws c) eqn:E; [|reflexivity].
  apply json_ws_js_ws in E. congruence.
Qed.

Lemma skip_ws_stringify (v : json) (t : string) :
  skip_ws (stringify v ++ t) = stringify v ++ t.
Proof.
  destruct (stringify_first v) as (c & s & E & P). rewrite E. simpl.
  rewrite (plain_not_json_ws c P). reflexivity.
Qed.

Lemma head_is_stringify (v : json) (t : string) :
  head_is "]"%char (stringify v ++ t) = None.
Proof.
  destruct (stringify_first v) as (c & s & E & P). rewrite E. unfold head_is. simpl (_ ++ _).
  destruct P as (_ & P & _). rewrite Ascii.eqb_sym, P. reflexivity.
Qed.

(** One step of the parser on the first character. *)
Lemma parse_value_number (f : nat) (c : ascii) (r : string) :
  (Ascii.eqb c "-"%char || is_digit c) = true ->
  parse_value (S f) (String c r) = parse_number (String c r).
Proof. destruct c as [[] [] [] [] [] [] [] []]; intros H; first [discriminate H | reflexivity]. Qed.

Lemma parse_value_arr (f : nat) (r : string) :
  parse_value (S f) (String "["%char r)
  = match head_is "]"%char (skip_ws r) with
    | Some r' => Some (JArr [], r')
    | None => option_map (fun '(xs, r') => (JArr xs, r')) (parse_elems f (skip_ws r))
    end.
Proof. reflexivity. Qed.

Lemma parse_value_obj (f : nat) (r : string) :
  parse_value (S f) (String "{"%char r)
  = match head_is "}"%char (skip_ws r) with
    | Some r' => Some (JObj [], r')
    | None =>
        option_map (fun '(ms, r') => (JObj (build_object ms), r')) (parse_members f (skip_ws r))
    end.
Proof. reflexivity. Qed.

Lemma parse_value_str (f : nat) (r : string) :
  parse_value (S f) (String dq r)
  = option_map (fun '(str, r') => (JStr str, r')) (parse_string_body r).
Proof. reflexivity. Qed.

(** ** Objects: [build_object] keeps distinct keys in order *)

Lemma obj_set_fresh (acc : list (string * json)) (k : string) (v : json) :
  existsb (String.eqb k) (map fst acc) = false -> obj_set acc k v = (acc ++ [(k, v)])%list.
Proof.
  induction acc as [|[k' v'] acc IH]; simpl; [reflexivity|].
  intros H. apply orb_false_iff in H as [H1 H2]. rewrite H1, IH by exact H2. reflexivity.
Qed.

Lemma fold_obj_set_nodup (ms acc : list (string * json)) :
  nodupb (map fst ms) = true ->
  (forall k, In k (map fst ms) -> existsb (String.eqb k) (map fst acc) = false) ->
  fold_left (fun acc '(k, v) => obj_set acc k v) ms acc = (acc ++ ms)%list.
Proof.
  revert acc; induction ms as [|[k v] ms IH]; intros acc Hnd Hfresh; simpl.
  - rewrite app_nil_r. reflexivity.
  - simpl in Hnd. apply andb_prop in Hnd as [Hk Hnd].
    rewrite obj_set_fresh by (apply Hfresh; left; reflexivity).
    rewrite IH; [rewrite <- app_assoc; reflexivity | exact Hnd |].
    intros k' Hin. rewrite map_app, existsb_app, Hfresh by (right; exact Hin). simpl.
    destruct (String.eqb_spec k' k) as [->|_]; [|reflexivity].
    apply negb_true_iff in Hk. rewrite <- Hk. symmetry. apply existsb_exists.
    exists k. split; [exact Hin | apply String.eqb_refl].
Qed.

Lemma build_object_nodup (ms : list (string * json)) :
  nodupb (map fst ms) = true -> build_object ms = ms.
Proof.
  intros H. unfold build_object. rewrite fold_obj_set_nodup; [reflexivity | exact H |].
  intros k _. reflexivity.
Qed.

(** ** Arrays and objects: the element and member loops *)

Lemma parse_elems_step (f : nat) (s : string) :
  parse_elems (S f) s
  = match parse_value f s with
    | None => None
    | Some (v, r) =>
        let r := skip_ws r in
        match head_is ","%char r with
        | Some r' => option_map (fun '(vs, r'') => (v :: vs, r'')) (parse_elems f (skip_ws r'))
        | None => match head_is "]"%char r with Some r' => Some ([v], r') | None => None end
        end
    end.
Proof. reflexivity. Qed.

Lemma concat_cons2 (a b : string) (l : list string) :
  String.concat "," (a :: b :: l) = a ++ String ","%char (String.concat "," (b :: l)).
Proof. reflexivity. Qed.

Lemma concat_stringify_app (y : json) (ys : list json) (t : string) :
  exists u, String.concat "," (map stringify (y :: ys)) ++ t = stringify y ++ u.
Proof.
  destruct ys as [|z zs].
  - exists t. reflexivity.
  - eexists. simpl map. rewrite concat_cons2, append_assoc_str. reflexivity.
Qed.

Lemma skip_ws_concat (y : json) (ys : list json) (t : string) :
  skip_ws (String.concat "," (map stringify (y :: ys)) ++ t)
  = String.concat "," (map stringify (y :: ys)) ++ t.
Proof.
  destruct (concat_stringify_app y ys t) as [u E]. rewrite E. apply skip_ws_stringify.
Qed.

Lemma parse_elems_roundtrip (xs : list json) :
  Forall roundtrip_prop xs -> forallb json_wf xs = true -> xs <> [] ->
  forall fuel rest, list_sum (map (fun x => S (jsize x)) xs) <= fuel ->
  parse_elems fuel (String.concat "," (map stringify xs) ++ String "]"%char rest)
  = Some (xs, rest).
Proof.
  induction 1 as [|x xs Hx Hall IH]; intros Hwf Hne fuel rest Hf; [congruence|].
  simpl in Hwf. apply andb_prop in Hwf as [Hwx Hwxs]. simpl in Hf.
  destruct fuel as [|f]; [lia|].
  destruct xs as [|y ys].
  - simpl map. unfold String.concat. rewrite parse_elems_step.
    rewrite (Hx Hwx f (String "]"%char rest)) by (simpl in Hf; first [lia | reflexivity]).
    reflexivity.
  - change (map stringify (x :: y :: ys)) with (stringify x :: stringify y :: map stringify ys).
    rewrite concat_cons2, append_assoc_str.
    change (String.concat "," (stringify y :: map stringify ys))
      with (String.concat "," (map stringify (y :: ys))).
    assert (HC := skip_ws_concat y ys (String "]"%char rest)).
    remember (String.concat "," (map stringify (y :: ys))) as C eqn:EC.
    change (String ","%char C ++ String "]"%char rest)
      with (String ","%char (C ++ String "]"%char rest)).
    rewrite parse_elems_step, Hx by (first [exact Hwx | lia | reflexivity]).
    simpl skip_ws. simpl head_is. cbv zeta iota beta.
    rewrite HC.
    rewrite IH by (first [exact Hwxs | discriminate | simpl in Hf |- *; lia]).
    reflexivity.
Qed.

Lemma head_is_same (c : ascii) (r : string) : head_is c (String c r) = Some r.
Proof. unfold head_is. rewrite Ascii.eqb_refl. reflexivity. Qed.

Lemma skip_ws_keep (c : ascii) (r : string) :
  is_json_ws c = false -> skip_ws (String c r) = String c r.
Proof. intros H. simpl. rewrite H. reflexivity. Qed.

Lemma parse_members_step (f : nat) (s : string) :
  parse_members (S f) s
  = match head_is dq s with
    | None => None
    | Some s1 =>
        match parse_string_body s1 with
        | None => None
        | Some (k, r1) =>
            match head_is ":"%char (skip_ws r1) with
            | None => None
            | Some r2 =>
                match parse_value f (skip_ws r2) with
                | None => None
                | Some (v, r3) =>
                    let r3 := skip_ws r3 in
                    match head_is ","%char r3 with
                    | Some r4 =>
                        option_map (fun '(ms, r5) => ((k, v) :: ms, r5))
                                   (parse_members f (skip_ws r4))
                    | None =>
                        match head_is "}"%char r3 with
                        | Some r4 => Some ([(k, v)], r4)
                        | None => None
                        end
                    end
                end
            end
        end
    end.
Proof. reflexivity. Qed.

Lemma member_app (k : string) (x : json) (t : string) :
  member_str (k, x) ++ t
  = String dq (escape_string k ++ String dq (String ":"%char (stringify x ++ t))).
Proof. unfold member_str. rewrite append_assoc_str, quote_app. reflexivity. Qed.

Lemma concat_member_app (kv : string * json) (kvs : list (string * json)) (t : string) :
  exists u, String.concat "," (map member_str (kv :: kvs)) ++ t = String dq u.
Proof.
  destruct kv as [k x]. destruct kvs as [|kv' kvs].
  - eexists. change (map member_str [(k, x)]) with [member_str (k, x)].
    unfold String.concat. apply member_app.
  - eexists. change (map member_str ((k, x) :: kv' :: kvs))
      with (member_str (k, x) :: member_str kv' :: map member_str kvs).
    rewrite concat_cons2, member_app. reflexivity.
Qed.

Lemma parse_member_one (k : string) (x : json) (f : nat) (t : string) :
  roundtrip_prop x -> json_wf x = true -> jsize x <= f -> number_continues t = false ->
  exists s1 r2,
    head_is dq (member_str (k, x) ++ t) = Some s1 /\
    parse_string_body s1 = Some (k, r2) /\
    head_is ":"%char (skip_ws r2) = Some (stringify x ++ t) /\
    parse_value f (skip_ws (stringify x ++ t)) = Some (x, t).
Proof.
  intros Hx Hw Hf Ht. rewrite member_app, head_is_same.
  eexists _, _. split; [reflexivity|]. split; [apply parse_escape_string|].
  rewrite skip_ws_keep by reflexivity. split; [apply head_is_same|].
  rewrite skip_ws_stringify. apply Hx; assumption.
Qed.

Lemma parse_members_roundtrip (kvs : list (string * json)) :
  Forall (fun kv => roundtrip_prop (snd kv)) kvs ->
  forallb (fun '(_, x) => json_wf x) kvs = true -> kvs <> [] ->
  forall fuel rest, list_sum (map (fun '(_, x) => S (jsize x)) kvs) <= fuel ->
  parse_members fuel (String.concat "," (map member_str kvs) ++ String "}"%char rest)
  = Some (kvs, rest).
Proof.
  induction 1 as [|[k x] kvs Hx Hall IH]; intros Hwf Hne fuel rest Hf; [congruence|].
  simpl in Hwf. apply andb_prop in Hwf as [Hwx Hwxs]. simpl in Hf, Hx.
  destruct fuel as [|f]; [lia|].
  destruct kvs as [|kv' kvs].
  - change (map member_str [(k, x)]) with [member_str (k, x)]. unfold String.concat.
    destruct (parse_member_one k x f (String "}"%char rest)) as (s1 & r2 & E1 & E2 & E3 & E4);
      [exact Hx | exact Hwx | lia | reflexivity |].
    rewrite parse_members_step, E1, E2, E3, E4. cbv zeta.
    rewrite skip_ws_keep by reflexivity. reflexivity.
  - change (map member_str ((k, x) :: kv' :: kvs))
      with (member_str (k, x) :: member_str kv' :: map member_str kvs).
    rewrite concat_cons2, append_assoc_str.
    change (String.concat "," (member_str kv' :: map member_str kvs))
      with (String.concat "," (map member_str (kv' :: kvs))).
    destruct (concat_member_app kv' kvs (String "}"%char rest)) as [u Eu].
    remember (String.concat "," (map member_str (kv' :: kvs))) as C eqn:EC.
    change (String ","%char C ++ String "}"%char rest)
      with (String ","%char (C ++ String "}"%char rest)).
    destruct (parse_member_one k x f (String ","%char (C ++ String "}"%char rest)))
      as (s1 & r2 & E1 & E2 & E3 & E4); [exact Hx | exact Hwx | lia | reflexivity |].
    rewrite parse_members_step, E1, E2, E3, E4. cbv zeta.
    rewrite skip_ws_keep by reflexivity. rewrite head_is_same.
    rewrite Eu, skip_ws_keep, <- Eu by reflexivity.
    rewrite IH by (first [exact Hwxs | discriminate | simpl in Hf |- *; lia]).
    reflexivity.
Qed.

Lemma stringify_arr_app (xs : list json) (rest : string) :
  stringify (JArr xs) ++ rest
  = String "["%char (String.concat "," (map stringify xs) ++ String "]"%char rest).
Proof. simpl. rewrite append_assoc_str. reflexivity. Qed.

Lemma stringify_obj_app (kvs : list (string * json)) (rest : string) :
  stringify (JObj kvs) ++ rest
  = String "{"%char (String.concat "," (map member_str kvs) ++ String "}"%char rest).
Proof. simpl. rewrite append_assoc_str. reflexivity. Qed.

Lemma roundtrip_all (v : json) : roundtrip_prop v.
Proof.
  induction v as [| b | z | s | xs IH | kvs IH] using json_ind';
    intros Hwf fuel rest Hf Hr; (destruct fuel as [|f]; [simpl in Hf; lia|]).
  - destruct rest; reflexivity.
  - destruct b, rest; reflexivity.
  - destruct (show_Z_first z) as (c & s & E & D & _).
    change (stringify (JNum z)) with (show_Z z). rewrite E.
    change (String c s ++ rest) with (String c (s ++ rest)).
    rewrite (parse_value_number f c (s ++ rest) D).
    change (String c (s ++ rest)) with (String c s ++ rest). rewrite <- E. apply parse_number_show; exact Hr.
  - change (stringify (JStr s)) with (quote s). rewrite quote_app, parse_value_str, parse_escape_string. reflexivity.
  - rewrite stringify_arr_app, parse_value_arr. destruct xs as [|y ys].
    + reflexivity.
    + rewrite skip_ws_concat.
      destruct (concat_stringify_app y ys (String "]"%char rest)) as [u Eu].
      rewrite Eu, head_is_stringify, <- Eu.
      rewrite parse_elems_roundtrip; [reflexivity | exact IH | exact Hwf | discriminate |].
      simpl in Hf |- *. lia.
  - rewrite stringify_obj_app, parse_value_obj. simpl in Hwf.
    apply andb_prop in Hwf as [Hnd Hwf]. destruct kvs as [|kv kvs].
    + reflexivity.
    + destruct (concat_member_app kv kvs (String "}"%char rest)) as [u Eu].
      rewrite Eu, skip_ws_keep by reflexivity. simpl head_is. cbv iota. rewrite <- Eu.
      rewrite parse_members_roundtrip; [| exact IH | exact Hwf | discriminate |].
      * simpl. rewrite build_object_nodup by exact Hnd. reflexivity.
      * simpl in Hf |- *. lia.
Qed.

(** ** Fuel: a value needs no more parser steps than it has characters *)

Lemma concat_length (l : list string) :
  l <> [] ->
  String.length (String.concat "," l) + 1 = list_sum (map (fun s => S (String.length s)) l).
Proof.
  induction l as [|a [|b l] IH]; intros Hne; [congruence | simpl; lia |].
  rewrite concat_cons2, length_append. simpl String.length.
  specialize (IH ltac:(discriminate)). simpl in IH |- *. lia.
Qed.

Lemma list_sum_map_le {A : Type} (f g : A -> nat) (l : list A) :
  Forall (fun x => f x <= g x) l -> list_sum (map f l) <= list_sum (map g l).
Proof. induction 1; simpl; lia. Qed.

Lemma jsize_le_length (v : json) : jsize v <= String.length (stringify v).
Proof.
  induction v as [| b | z | s | xs IH | kvs IH] using json_ind'.
  - simpl. lia.
  - destruct b; simpl; lia.
  - destruct (show_Z_first z) as (c & s & E & _). simpl. rewrite E. simpl. lia.
  - simpl. lia.
  - rewrite <- (append_nil_r (stringify (JArr xs))), stringify_arr_app.
    simpl String.length. rewrite length_append. simpl String.length.
    destruct xs as [|y ys]; [simpl; lia|].
    assert (Hl := concat_length (map stringify (y :: ys)) ltac:(discriminate)).
    rewrite map_map in Hl.
    change (jsize (JArr (y :: ys))) with (S (list_sum (map (fun x => S (jsize x)) (y :: ys)))).
    enough (list_sum (map (fun x => S (jsize x)) (y :: ys))
            <= list_sum (map (fun x => S (String.length (stringify x))) (y :: ys))) by lia.
    apply list_sum_map_le. eapply Forall_impl; [|exact IH]. simpl. intros x Hx. lia.
  - rewrite <- (append_nil_r (stringify (JObj kvs))), stringify_obj_app.
    simpl String.length. rewrite length_append. simpl String.length.
    destruct kvs as [|kv kvs]; [simpl; lia|].
    assert (Hl := concat_length (map member_str (kv :: kvs)) ltac:(discriminate)).
    rewrite map_map in Hl.
    change (jsize (JObj (kv :: kvs)))
      with (S (list_sum (map (fun '(_, x) => S (jsize x)) (kv :: kvs)))).
    enough (list_sum (map (fun '(_, x) => S (jsize x)) (kv :: kvs))
            <= list_sum (map (fun kv => S (String.length (member_str kv))) (kv :: kvs))) by lia.
    apply list_sum_map_le. eapply Forall_impl; [|exact IH]. intros [k x] Hx. simpl in Hx.
    unfold member_str. rewrite !length_append. simpl. lia.
Qed.

Lemma json_parse_stringify (v : json) :
  json_wf v = true -> json_parse (stringify v) = Some v.
Proof.
  intros Hwf. unfold json_parse.
  rewrite <- (append_nil_r (stringify v)) at 2. rewrite skip_ws_stringify.
  rewrite roundtrip_all; [reflexivity | exact Hwf | | reflexivity].
  pose proof (jsize_le_length v). lia.
Qed.

(** ** Cleaning a serialized value, with and without fences *)

Lemma prefix_app (a b : string) : String.prefix a (a ++ b) = true.
Proof.
  induction a as [|c a IH]; simpl.
  - destruct b; reflexivity.
  - destruct (ascii_dec c c) as [_|n]; [exact IH | congruence].
Qed.

Lemma trim_start_keep (c : ascii) (s : string) :
  is_js_ws c = false -> trim_start (String c s) = String c s.
Proof. intros H. simpl. rewrite H. reflexivity. Qed.

Lemma trim_end_last (s : string) (c : ascii) :
  is_js_ws c = false -> trim_end (s ++ String c EmptyString) = s ++ String c EmptyString.
Proof.
  intros H. rewrite <- (append_nil_r (s ++ String c EmptyString)) at 1.
  rewrite trim_end_app by exact H. apply append_nil_r.
Qed.

Lemma trim_stringify (v : json) : trim (stringify v) = stringify v.
Proof.
  unfold trim. destruct (stringify_first v) as (c & s & E & P). rewrite E.
  rewrite trim_start_keep by apply P. rewrite <- E.
  destruct (stringify_last v) as (s' & c' & E' & P'). rewrite E'.
  apply trim_end_last, P'.
Qed.

Lemma trim_nl_stringify (v : json) : trim (nl ++ stringify v ++ nl) = stringify v.
Proof.
  unfold trim. simpl (trim_start (nl ++ _)).
  destruct (stringify_first v) as (c & s & E & P). rewrite E. simpl (String c s ++ nl).
  rewrite trim_start_keep by apply P.
  change (String c (s ++ nl)) with (String c s ++ nl). rewrite <- E.
  destruct (stringify_last v) as (s' & c' & E' & P'). rewrite E'.
  unfold nl. rewrite trim_end_app by apply P'. apply append_nil_r.
Qed.

Lemma strip_fences_fenced (v : json) :
  strip_fences ("```json" ++ nl ++ stringify v ++ nl ++ fence) = stringify v.
Proof.
  unfold strip_fences.
  assert (Ht : trim ("```json" ++ nl ++ stringify v ++ nl ++ fence)
               = "```json" ++ nl ++ stringify v ++ nl ++ fence).
  { unfold trim.
    change ("```json" ++ nl ++ stringify v ++ nl ++ fence)
      with (String "`"%char ("``json" ++ nl ++ stringify v ++ nl ++ fence)) at 1.
    rewrite trim_start_keep by reflexivity.
    assert (Hl : String "`"%char ("``json" ++ nl ++ stringify v ++ nl ++ fence)
                 = ("```json" ++ nl ++ stringify v ++ nl ++ "``") ++ String "`"%char EmptyString)
      by (rewrite !append_assoc_str; reflexivity).
    rewrite Hl, trim_end_last by reflexivity.
    rewrite !append_assoc_str. reflexivity. }
  rewrite Ht. cbv zeta.
  unfold starts_with. rewrite prefix_app.
  rewrite (slice_from_app "```json").
  rewrite <- !append_assoc_str. rewrite ends_with_app, slice_drop_end_app.
  rewrite !append_assoc_str. apply trim_nl_stringify.
Qed.

Lemma first_not_backtick (v : json) (p : string) :
  String.prefix (String "`"%char p) (stringify v) = false.
Proof.
  destruct (stringify_first v) as (c & s & E & P). rewrite E.
  change (String.prefix (String "`"%char p) (String c s))
    with (match ascii_dec "`"%char c with left _ => String.prefix p s | right _ => false end).
  destruct P as (_ & _ & _ & P & _).
  destruct (ascii_dec "`"%char c) as [e|_]; [|reflexivity].
  subst c. discriminate P.
Qed.

Lemma no_end_fence (v : json) : ends_with fence (stringify v) = false.
Proof.
  destruct (ends_with fence (stringify v)) eqn:H; [|reflexivity].
  apply ends_with_split in H.
  destruct (stringify_last v) as (s' & c' & E' & P'). rewrite E' in H.
  set (x := substring _ _ _) in H.
  change fence with ("``" ++ String "`"%char EmptyString) in H.
  rewrite <- append_assoc_str in H. apply app_last_inj in H. subst c'.
  destruct P' as [_ P']. discriminate P'.
Qed.

Lemma strip_fences_plain (v : json) : strip_fences (stringify v) = stringify v.
Proof.
  unfold strip_fences. rewrite trim_stringify. cbv zeta. unfold starts_with.
  change (String.prefix "```json" (stringify v))
    with (String.prefix (String "`"%char "``json") (stringify v)).
  change (String.prefix fence (stringify v))
    with (String.prefix (String "`"%char "``") (stringify v)).
  rewrite !first_not_backtick, no_end_fence. apply trim_stringify.
Qed.

(** ** Programs that settle without rejecting *)

Lemma never_throws_bind {A B : Type} (p : prog A) (f : A -> prog B) :
  never_throws p -> (forall a, never_throws (f a)) -> never_throws (bind p f).
Proof.
  induction p; simpl; intros Hp Hf; auto; contradiction.
Qed.

Lemma never_throws_catch {A : Type} (p : prog A) (h : js_error -> prog A) :
  (forall e, never_throws (h e)) -> never_throws (catch p h).
Proof.
  induction p; simpl; intros Hh; auto.
Qed.

Lemma processExtraction_never_throws resolve file options startTime :
  never_throws (processExtraction resolve file options startTime).
Proof.
  unfold processExtraction; simpl; intros pv.
  destruct (negb _); simpl; [exact I |].
  apply never_throws_catch; intros; exact I.
Qed.

Lemma try_load_never_throws resolve load options startTime :
  never_throws (try_load resolve load options startTime).
Proof.
  unfold try_load; apply never_throws_bind.
  - apply never_throws_catch; intros; exact I.
  - intros [file | result]; [apply processExtraction_never_throws | exact I].
Qed.

(** ** Looking up request parameters *)

Lemma lookup_put {V : Type} (o : list (string * V)) (k : string) (v : V) (k' : string) :
  lookup (put o k v) k' = if String.eqb k' k then Some v else lookup o k'.
Proof.
  induction o as [| [k0 v0] o IH]; simpl.
  - destruct (String.eqb k' k); reflexivity.
  - destruct (String.eqb_spec k k0) as [-> | Hne]; simpl.
    + destruct (String.eqb k' k0); reflexivity.
    + destruct (String.eqb_spec k' k0) as [-> | Hne'].
      * destruct (String.eqb_spec k0 k); [congruence | reflexivity].
      * exact IH.
Qed.

Lemma lookup_set_if {T : Type} (o : list (string * param)) (k : string) (x : option T)
  (to : T -> param) (k' : string) :
  lookup (set_if o k x to) k'
  = match x with
    | Some a => if String.eqb k' k then Some (to a) else lookup o k'
    | None => lookup o k'
    end.
Proof. destruct x; simpl; [apply lookup_put | reflexivity]. Qed.

Lemma lookup_app {V : Type} (o1 o2 : list (string * V)) (k : string) :
  lookup (o1 ++ o2)%list k = match lookup o1 k with Some v => Some v | None => lookup o2 k end.
Proof.
  induction o1 as [| [k0 v0] o1 IH]; simpl; [reflexivity |].
  destruct (String.eqb k k0); [reflexivity | exact IH].
Qed.

Lemma lookup_defined_fields (o : list (string * option param)) (k : string) :
  NoDup (map fst o) ->
  lookup (defined_fields o) k = match lookup o k with Some x => x | None => None end.
Proof.
  induction o as [| [k0 [v0 |]] o IH]; simpl; intros Hnd; [reflexivity | |];
  inversion Hnd as [| ? ? Hnin Hnd']; subst.
  - destruct (String.eqb k k0); [reflexivity | auto].
  - destruct (String.eqb_spec k k0) as [-> | ]; [| auto].
    rewrite IH by exact Hnd'.
    assert (Hl : lookup o k0 = None).
    { clear -Hnin. induction o as [| [k1 v1] o IHo]; simpl in *; [reflexivity |].
      destruct (String.eqb_spec k0 k1) as [-> | ];
        [exfalso; apply Hnin; left; reflexivity | apply IHo; tauto]. }
    rewrite Hl. reflexivity.
Qed.

Lemma openai_options_unfold m mc :
  openai_buildCompletionOptions m mc =
  set_if (set_if (set_if
    (put [] (if uses_completion_tokens m then "max_completion_tokens" else "max_tokens")
         (PNum (match mc_get maxTokens mc with Some n => n | None => tokens_default end)))
    "temperature" (mc_get temperature mc) PNum) "top_p" (mc_get topP mc) PNum)
    "stop" (mc_get stopSequences mc) PStrs.
Proof. reflexivity. Qed.

(** Claude's request names each option explicitly; the value it sends under a
    key is the one [buildMessageOptions] holds. *)
Lemma request_params_lookup pv json_mode mc k :
  lookup (request_params pv json_mode mc) k =
  match name pv with
  | gemini | vertex =>
      lookup (set_if (set_if (set_if (set_if (set_if
        (if json_mode then [("responseMimeType", PStr "application/json")] else [])
        "temperature" (mc_get temperature mc) PNum) "maxOutputTokens" (mc_get maxTokens mc) PNum)
        "topP" (mc_get topP mc) PNum) "topK" (mc_get topK mc) PNum)
        "stopSequences" (mc_get stopSequences mc) PStrs) k
  | openai =>
      lookup (openai_buildCompletionOptions (model pv) mc
              ++ (if json_mode then [("response_format", PJson (JObj [("type", JStr "json_object")]))]
                  else []))%list k
  | grok => lookup (grok_buildCompletionOptions mc) k
  | claude => lookup (claude_buildMessageOptions mc) k
  end.
Proof.
  unfold request_params. destruct (name pv); try reflexivity.
  unfold claude_request_params.
  rewrite lookup_defined_fields by (simpl; repeat constructor; simpl; intuition discriminate).
  set (o := claude_buildMessageOptions mc). simpl.
  destruct (String.eqb_spec k "max_tokens") as [-> |]; [reflexivity |].
  destruct (String.eqb_spec k "temperature") as [-> |]; [reflexivity |].
  destruct (String.eqb_spec k "top_p") as [-> |]; [reflexivity |].
  destruct (String.eqb_spec k "top_k") as [-> |]; [reflexivity |].
  destruct (String.eqb_spec k "stop_sequences") as [-> |]; [reflexivity |].
  unfold o, claude_buildMessageOptions.
  repeat rewrite lookup_set_if. simpl.
  repeat match goal with
  | H : ?k <> ?s |- context [String.eqb ?k ?s] =>
      replace (String.eqb k s) with false by (symmetry; apply String.eqb_neq; exact H)
  end.
  destruct (mc_get _ mc), (mc_get _ mc), (mc_get _ mc), (mc_get _ mc), (mc_get _ mc); reflexivity.
Qed.

(** Case analysis on the keys a request is looked up at. *)
Ltac split_lookup H :=
  repeat match type of H with
  | None = Some _ => discriminate H
  | Some _ = Some _ => injection H as <-
  | context [String.eqb ?k ?s] =>
      let E := fresh "E" in
      destruct (String.eqb_spec k s) as [E | E]; [subst k | ]; simpl in H
  end.

(** Where an entry of a request comes from. *)
Ltac justify :=
  first
    [ left; exists F_temperature; split; reflexivity
    | left; exists F_maxTokens; split; reflexivity
    | left; exists F_topP; split; reflexivity
    | left; exists F_topK; split; reflexivity
    | left; exists F_stopSequences; split; reflexivity
    | right; left; split; reflexivity
    | right; right; repeat split; reflexivity ].

(** ** The preview of an unparsable response *)

Lemma substring_to_length (n : nat) (s : string) : String.length (substring_to n s) <= n.
Proof.
  unfold substring_to. revert s; induction n as [| n IH]; intros [| c s]; simpl; try lia.
  specialize (IH s). lia.
Qed.

Lemma substring_to_prefix (n : nat) (s : string) : String.prefix (substring_to n s) s = true.
Proof.
  unfold substring_to. revert s; induction n as [| n IH]; intros [| c s]; simpl; try reflexivity.
  destruct (ascii_dec c c) as [_ | []]; [apply IH | reflexivity].
Qed.

Lemma substring_to_short (n : nat) (s : string) : String.length s <= n -> substring_to n s = s.
Proof.
  unfold substring_to. revert s; induction n as [| n IH]; intros [| c s]; simpl; intros H;
    try reflexivity; try lia.
  rewrite IH by lia. reflexivity.
Qed.

Lemma trim_nonblank (k : string) :
  negb (String.eqb (trim k) EmptyString) = true -> String.eqb k EmptyString = false.
Proof. destruct k; [discriminate | reflexivity]. Qed.

(** * The claims *)

(** C1: for every source, buffer, base64 text and options, and whatever the
    file system, the network, the services and the clock do, the promises of
    [extract], [extractFromBuffer] and [extractFromBase64] never reject:
    every error of the load, the service call, the parsing or the saving is
    turned into a [Failure] by [createErrorResult]. *)
Theorem extract_never_rejects resolve base64_decode url_pathname disposition_filename
  source buffer base64 fileName options :
  never_throws (extract resolve url_pathname disposition_filename source options)
  /\ never_throws (extractFromBuffer resolve buffer fileName options)
  /\ never_throws (extractFromBase64 resolve base64_decode base64 fileName options).
Proof.
  repeat split; simpl; intros t; apply try_load_never_throws.
Qed.

(** C2: when [options.format] is json and [options.schema] is absent,
    [processExtraction] on a file whose type the provider supports returns
    the [Failure] with code MISSING_SCHEMA, in every run, and no run of it
    sends a request to a service (neither [extractJson] nor [extractText]
    is reached). *)
Theorem processExtraction_missing_schema resolve file o startTime h sched s :
  format o = Some "json" -> schema o = None ->
  supportsFileType (provider s) (fi_type file) = true ->
  run h sched s (processExtraction resolve file (Some o) startTime)
    = Ok (Failure "Schema is required for JSON extraction" "MISSING_SCHEMA")
  /\ never_backend (processExtraction resolve file (Some o) startTime).
Proof.
  intros Hf Hs Hsup. unfold processExtraction. cbv beta iota zeta.
  rewrite Hf, Hs. split.
  - simpl. rewrite Hsup. reflexivity.
  - simpl. intros pv. destruct (negb _); exact I.
Qed.

Theorem processExtraction_missing_schema_witness :
  run (demo_handler (ok_response "text/plain")) no_interleaving demo_state
      (processExtraction (fun p => p)
         (mkFileInfo "/tmp/a.txt" "a.txt" (JSString "text") (JSString "text/plain") 5 "hello")
         (Some (mkOptions (Some "json") None None None)) 0)
    = Ok (Failure "Schema is required for JSON extraction" "MISSING_SCHEMA")
  /\ never_backend (processExtraction (fun p => p)
         (mkFileInfo "/tmp/a.txt" "a.txt" (JSString "text") (JSString "text/plain") 5 "hello")
         (Some (mkOptions (Some "json") None None None)) 0).
Proof.
  apply processExtraction_missing_schema; reflexivity.
Defined.

(** C3 (as the code behaves): for a local (non-URL) source whose extension
    has no file category, [extract] returns a [Failure] with the code
    EXTRACTION_ERROR (never UNSUPPORTED_FILE_TYPE), whatever the file system,
    the services and the clock do, and sends no request to a service: the
    loader throws and [createErrorResult] classifies the error.  When the
    path does not exist the message is File not found; when it exists and is
    a file, the message is Unsupported file type with the supported list. *)
Theorem extract_unsupported_extension resolve url_pathname disposition_filename
  source options h sched s :
  isUrl source = false ->
  truthy (js_get FILE_TYPE_CATEGORIES (toLowerCase (extname (resolve source)))) = false ->
  (exists message,
     run h sched s (extract resolve url_pathname disposition_filename source options)
     = Ok (Failure message "EXTRACTION_ERROR"))
  /\ calls_backend h sched s (extract resolve url_pathname disposition_filename source options)
     = false
  /\ (forall e, answer h unit (FsAccess (resolve source)) = Rejected e ->
        run h sched s (extract resolve url_pathname disposition_filename source options)
        = Ok (Failure ("File not found: " ++ resolve source) "EXTRACTION_ERROR"))
  /\ (forall st, answer h unit (FsAccess (resolve source)) = Ok tt ->
        answer h Stats (FsStat (resolve source)) = Ok st ->
        isFile st = true ->
        run h sched s (extract resolve url_pathname disposition_filename source options)
        = Ok (Failure ("Unsupported file type: " ++ toLowerCase (extname (resolve source))
                       ++ ". Supported types: " ++ supported_list)
                      "EXTRACTION_ERROR")).
Proof.
  intros Hurl Hcat.
  unfold extract, try_load, loadFile. rewrite Hurl. simpl.
  repeat split.
  - destruct (answer h unit (FsAccess (resolve source))) as [[]|e]; simpl;
      [| eexists; reflexivity].
    destruct (answer h Stats (FsStat (resolve source))) as [st|e]; simpl;
      [| destruct e; eexists; reflexivity].
    destruct (isFile st); simpl; [| eexists; reflexivity].
    rewrite Hcat, orb_true_r. simpl. eexists; reflexivity.
  - destruct (answer h unit (FsAccess (resolve source))) as [[]|e]; simpl; [| reflexivity].
    destruct (answer h Stats (FsStat (resolve source))) as [st|e]; simpl; [| reflexivity].
    destruct (isFile st); simpl; [| reflexivity].
    rewrite Hcat, orb_true_r. reflexivity.
  - intros e He. rewrite He. reflexivity.
  - intros st Hacc Hstat Hfile. rewrite Hacc. simpl. rewrite Hstat. simpl. rewrite Hfile. simpl.
    rewrite Hcat, orb_true_r. reflexivity.
Qed.

Theorem extract_unsupported_extension_witness :
  run (demo_handler (ok_response "text/plain")) no_interleaving demo_state
      (extract (fun p => p) (fun _ => "/doc") (fun _ => None) "/tmp/a.exe" None)
    = Ok (Failure ("Unsupported file type: " ++ ".exe" ++ ". Supported types: " ++ supported_list)
                  "EXTRACTION_ERROR")
  /\ calls_backend (demo_handler (ok_response "text/plain")) no_interleaving demo_state
       (extract (fun p => p) (fun _ => "/doc") (fun _ => None) "/tmp/a.exe" None) = false.
Proof.
  destruct (extract_unsupported_extension (fun p => p) (fun _ => "/doc") (fun _ => None)
              "/tmp/a.exe" None (demo_handler (ok_response "text/plain")) no_interleaving
              demo_state) as [_ [Hb [_ Hf]]]; [reflexivity | reflexivity |].
  split; [apply (Hf (mkStats true 5)); reflexivity | exact Hb].
Defined.

(** C3 counterexample: a local .exe file ends in the code EXTRACTION_ERROR. *)
Theorem extract_unsupported_extension_counterexample :
  result_code
    (run (demo_handler (ok_response "text/plain")) no_interleaving demo_state
         (extract (fun p => p) (fun _ => "/doc") (fun _ => None) "/tmp/a.exe" None))
  = Some "EXTRACTION_ERROR".
Proof. vm_compute. reflexivity. Qed.

(** C4 (as the code behaves): for every adapter, text or JSON mode and
    model configuration, every entry of the request is a field the caller
    set (under the adapter's name for it), the entry JSON mode adds, or the
    default token limit 16384 when the caller set no [maxTokens]; so an
    unset field is never sent.  The default limit is sent by OpenAI, Grok
    and Claude only: Gemini and Vertex AI send no limit at all. *)
Theorem request_params_unset_fields pv json_mode mc :
  (forall k v, lookup (request_params pv json_mode mc) k = Some v ->
     (exists f, field_key pv f = Some k /\ field_param mc f = Some v)
     \/ (json_mode = true /\ json_mode_param pv = Some (k, v))
     \/ (has_default_ceiling (name pv) = true /\ k = token_param_name pv
         /\ mc_get maxTokens mc = None /\ v = PNum tokens_default))
  /\ (mc_get maxTokens mc = None ->
      lookup (request_params pv json_mode mc) (token_param_name pv)
      = if has_default_ceiling (name pv) then Some (PNum tokens_default) else None).
Proof.
  destruct pv as [p m].
  unfold field_key, token_param_name, json_mode_param.
  split; [intros k v H | intros Hmt]; rewrite request_params_lookup in *;
  simpl name in *; simpl model in *;
  unfold grok_buildCompletionOptions, claude_buildMessageOptions in *;
  try rewrite openai_options_unfold in *;
  destruct (uses_completion_tokens m);
  repeat rewrite ?lookup_set_if, ?lookup_put, ?lookup_app in *;
  destruct mc as [[t mt tp tk ss] |]; simpl mc_get in *; try subst mt;
  destruct p, json_mode; try destruct t; try destruct mt; try destruct tp; try destruct tk;
  try destruct ss;
  simpl in *; try reflexivity; split_lookup H; justify.
Qed.

(** C4 counterexample: a Gemini text request with no model configuration
    carries no parameter, so no token limit. *)
Theorem request_params_gemini_counterexample :
  request_params (mkProvider gemini "gemini-1.5-flash") false None = [].
Proof. reflexivity. Qed.

(** C5 (as the code behaves): the OpenAI adapter names its token limit
    max_completion_tokens exactly when the model starts with gpt-5, o1 or
    o3, and max_tokens otherwise; the Grok adapter always names it
    max_tokens, whatever its model. *)
Theorem token_limit_param_name (m m' : string) json_mode mc :
  has_key (request_params (mkProvider openai m) json_mode mc) "max_completion_tokens"
    = uses_completion_tokens m
  /\ has_key (request_params (mkProvider openai m) json_mode mc) "max_tokens"
    = negb (uses_completion_tokens m)
  /\ has_key (request_params (mkProvider grok m') json_mode mc) "max_tokens" = true
  /\ has_key (request_params (mkProvider grok m') json_mode mc) "max_completion_tokens" = false.
Proof.
  unfold has_key. rewrite !request_params_lookup. simpl name; simpl model.
  rewrite openai_options_unfold. unfold grok_buildCompletionOptions.
  repeat rewrite ?lookup_set_if, ?lookup_put, ?lookup_app.
  destruct (uses_completion_tokens m), json_mode;
  destruct mc as [[t mt tp tk ss] |]; simpl;
  try destruct t; try destruct mt; try destruct tp; try destruct ss; repeat split.
Qed.

(** C5 counterexample: Grok with a model starting with o1 sends no
    max_completion_tokens. *)
Theorem token_limit_grok_counterexample :
  uses_completion_tokens "o1-preview" = true
  /\ has_key (request_params (mkProvider grok "o1-preview") false None) "max_completion_tokens"
     = false.
Proof. split; reflexivity. Qed.

(** C7: whenever [JSON.parse] rejects the cleaned text, [parseJsonResponse]
    throws an error whose message carries a preview of the original text:
    a prefix of it, at most 200 characters long, the whole text when it is
    no longer. *)
Theorem parseJsonResponse_failure_preview (parse : string -> option json) (response : string) :
  parse (strip_fences response) = None ->
  exists preview,
    parseJsonResponse_with parse response
    = Rejected (ErrorObj ("Failed to parse JSON response: " ++ preview ++ "..."))
    /\ String.length preview <= 200
    /\ String.prefix preview response = true
    /\ (String.length response <= 200 -> preview = response).
Proof.
  intros Hp. exists (substring_to 200 response).
  unfold parseJsonResponse_with. rewrite Hp.
  split; [reflexivity |].
  split; [apply substring_to_length |].
  split; [apply substring_to_prefix | apply substring_to_short].
Qed.

Theorem parseJsonResponse_failure_preview_witness :
  json_parse (strip_fences "Sorry, I cannot read this document.") = None
  /\ exists preview,
    parseJsonResponse_with json_parse "Sorry, I cannot read this document."
    = Rejected (ErrorObj ("Failed to parse JSON response: " ++ preview ++ "..."))
    /\ String.length preview <= 200
    /\ String.prefix preview "Sorry, I cannot read this document." = true
    /\ (String.length "Sorry, I cannot read this document." <= 200
        -> preview = "Sorry, I cannot read this document.").
Proof.
  split; [vm_compute; reflexivity |].
  apply parseJsonResponse_failure_preview. vm_compute. reflexivity.
Defined.

(** C8 (as the code behaves): with valid credentials, [new OcrAI] succeeds,
    [getProvider] is the requested provider, and [getModel] is the supplied
    model when it is a non-empty string, the provider's documented default
    otherwise (an empty model string counts as absent). *)
Theorem new_OcrAI_provider_model (config : OcrConfig) :
  valid_credentials config = true ->
  exists s, new_OcrAI config = Ok s
    /\ getProvider s = config_provider config
    /\ getModel s = match config_model config with
                    | Some m => if String.eqb m EmptyString
                                then documented_default (config_provider config) else m
                    | None => documented_default (config_provider config)
                    end.
Proof.
  destruct config as [p key m vc]; unfold valid_credentials, new_OcrAI, createProvider;
  simpl; intros Hv.
  destruct p;
  try (destruct vc; [| discriminate]);
  try (destruct key as [k |]; [| discriminate];
       unfold truthy_str; rewrite (trim_nonblank k Hv); simpl;
       unfold new_provider, BaseProvider_check;
       rewrite (trim_nonblank k Hv); apply negb_true_iff in Hv; rewrite Hv);
  simpl; eexists; (split; [reflexivity |]);
  (split; [reflexivity |]); destruct m; reflexivity.
Qed.

Theorem new_OcrAI_provider_model_witness :
  valid_credentials (mkOcrConfig openai (Some "sk-test") None None) = true
  /\ exists s, new_OcrAI (mkOcrConfig openai (Some "sk-test") None None) = Ok s
    /\ getProvider s = openai
    /\ getModel s = "gpt-4o".
Proof.
  split; [reflexivity |].
  apply (new_OcrAI_provider_model (mkOcrConfig openai (Some "sk-test") None None)).
  reflexivity.
Defined.

(** C8 counterexample: a supplied empty model string is replaced by the
    default. *)
Theorem new_OcrAI_empty_model_counterexample :
  match new_OcrAI (mkOcrConfig gemini (Some "key") (Some EmptyString) None) with
  | Ok s => getModel s
  | Rejected _ => "rejected"
  end = "gemini-1.5-flash".
Proof. reflexivity. Qed.

(** C9 (a divergence of the code): the instance starts on Gemini and other
    code calls [setProvider] for Grok while the Gemini request of an
    [extractFromBuffer] call is awaited.  The Gemini adapter serves the
    call, yet its metadata names Grok and Grok's default model, because
    [processExtraction] reads [this.provider] after the await. *)
Theorem reconfigure_in_flight_metadata :
  run (demo_handler (ok_response "text/plain")) reconfigure_during_backend demo_state
      (extractFromBuffer (fun p => p) "hello" "a.txt" None)
  = Ok (TextSuccess "gemini"
          (mkMetadata grok "grok-2-vision-1212" (JSString "text") "a.txt" 0)).
Proof. vm_compute. reflexivity. Qed.

(** C10 (a divergence of the code): a URL served with Content-Type
    constructor loads as a file whose type is the inherited
    [Object.prototype.constructor] of [MIME_TO_FILE_TYPE], outside pdf,
    image and text, and [extract] then reaches the UNSUPPORTED_FILE_TYPE
    branch of [processExtraction]. *)
Theorem url_loader_prototype_type :
  run (demo_handler (ok_response "constructor")) no_interleaving demo_state
      (loadFileFromUrl (fun _ => "/doc") (fun _ => None) "https://example.com/doc")
  = Ok (mkFileInfo "https://example.com/doc" "doc" (JSProto "constructor")
                   (JSString "constructor") 5 "hello")
  /\ run (demo_handler (ok_response "constructor")) no_interleaving demo_state
      (extract (fun p => p) (fun _ => "/doc") (fun _ => None) "https://example.com/doc" None)
  = Ok (Failure "Provider gemini does not support file type: function Object() { [native code] }"
                "UNSUPPORTED_FILE_TYPE").
Proof. split; vm_compute; reflexivity. Qed.

(** * More of the code *)

Lemma last_dot_spec (s : string) (i : nat) (acc : option nat) (j : nat) :
  last_dot s i acc = Some j -> acc = Some j \/ (i <= j /\ String.get (j - i) s = Some dot).
Proof.
  revert i acc; induction s as [| c s IH]; simpl; intros i acc H; [left; exact H |].
  apply IH in H. destruct H as [H | [Hle Hg]].
  - destruct (Ascii.eqb_spec c dot) as [-> |]; [| left; exact H].
    injection H as <-. right. split; [lia |]. rewrite Nat.sub_diag. reflexivity.
  - right. split; [lia |]. replace (j - i) with (S (j - S i)) by lia. exact Hg.
Qed.

Lemma get_substring (s : string) (n m : nat) (c : ascii) :
  String.get n s = Some c -> 0 < m -> exists r, substring n m s = String c r.
Proof.
  revert n; induction s as [| d s IH]; intros n Hg Hm; [destruct n; discriminate |].
  destruct n as [| n]; simpl in *.
  - injection Hg as ->. destruct m as [| m]; [lia |]. eexists; reflexivity.
  - apply IH; assumption.
Qed.

Lemma get_lt (s : string) (n : nat) (c : ascii) : String.get n s = Some c -> n < String.length s.
Proof.
  revert n; induction s as [| d s IH]; intros [| n] H; simpl in *; try discriminate; try lia.
  apply IH in H. lia.
Qed.

(** [path.extname] is empty or starts with a dot. *)
Lemma extname_shape (p : string) :
  extname p = EmptyString \/ exists r, extname p = String "." r.
Proof.
  unfold extname. set (b := basename p).
  destruct (last_dot b 0 None) as [[| i] |] eqn:E; [left; reflexivity | | left; reflexivity].
  destruct (String.eqb b ".."); [left; reflexivity | right].
  apply last_dot_spec in E. destruct E as [E | [_ Hg]]; [discriminate |].
  rewrite Nat.sub_0_r in Hg.
  assert (Hlt := get_lt _ _ _ Hg).
  destruct (get_substring b (S i) (String.length b - S i) dot Hg) as [r Hr]; [lia |].
  exists r. exact Hr.
Qed.

Lemma to_lower_char_dot (c : ascii) : to_lower_char c = "."%char <-> c = "."%char.
Proof.
  destruct c as [[] [] [] [] [] [] [] []]; vm_compute; split; intros H;
    solve [reflexivity | discriminate H].
Qed.

Lemma toLowerCase_dot (r : string) : toLowerCase (String "." r) = String "." (toLowerCase r).
Proof. reflexivity. Qed.

Lemma lookup_In {V : Type} (o : list (string * V)) (k : string) (v : V) :
  lookup o k = Some v -> In (k, v) o.
Proof.
  induction o as [| [k0 v0] o IH]; simpl; [discriminate |].
  destruct (String.eqb_spec k k0) as [-> | ]; intros H; [injection H as ->; left; reflexivity |].
  right; auto.
Qed.

Lemma lookup_existsb {V : Type} (o : list (string * V)) (k : string) :
  existsb (String.eqb k) (map fst o) = match lookup o k with Some _ => true | None => false end.
Proof.
  induction o as [| [k0 v0] o IH]; simpl; [reflexivity |].
  destruct (String.eqb k k0); [reflexivity | exact IH].
Qed.

Lemma lookup_same_keys {V W : Type} (o1 : list (string * V)) (o2 : list (string * W)) (k : string) :
  map fst o1 = map fst o2 ->
  match lookup o1 k with Some _ => true | None => false end
  = match lookup o2 k with Some _ => true | None => false end.
Proof.
  intros H. rewrite <- !lookup_existsb, H. reflexivity.
Qed.

(** An own key of a table, or a key starting with a dot, is no member of
    [Object.prototype]. *)
Lemma js_get_dot (o : list (string * string)) (r : string) :
  js_get o (String "." r) = match lookup o (String "." r) with Some v => JSString v | None => JSUndefined end.
Proof. unfold js_get. destruct (lookup o _); reflexivity. Qed.

Lemma categories_known (k v : string) :
  lookup FILE_TYPE_CATEGORIES k = Some v -> In v ["pdf"; "image"; "text"].
Proof.
  intros H. apply lookup_In in H. simpl in H.
  repeat destruct H as [H | H]; try (injection H as <- <-; simpl; tauto); contradiction.
Qed.

Lemma mime_types_nonempty (k v : string) :
  lookup MIME_TYPES k = Some v -> String.eqb v EmptyString = false.
Proof.
  intros H. apply lookup_In in H. simpl in H.
  repeat destruct H as [H | H]; try (injection H as <- <-; reflexivity); contradiction.
Qed.

Lemma supported_extensions_dot (e : string) :
  In e getSupportedExtensions -> exists r, e = String "." r.
Proof.
  simpl. intros H. repeat destruct H as [H | H]; try (subst; eexists; reflexivity); contradiction.
Qed.

Lemma in_existsb_eqb (e : string) (l : list string) : existsb (String.eqb e) l = true <-> In e l.
Proof.
  rewrite existsb_exists. split.
  - intros [x [Hx He]]. apply String.eqb_eq in He. subst; exact Hx.
  - intros H. exists e. split; [exact H | apply String.eqb_refl].
Qed.

(** X1: [isExtensionSupported(ext)] holds exactly when the lower-cased
    [ext], with a dot put in front when it has none, is one of the
    extensions [getSupportedExtensions()] lists; names inherited from
    [Object.prototype] never count. *)
Theorem isExtensionSupported_spec (ext : string) :
  isExtensionSupported ext = true
  <-> exists e, In e getSupportedExtensions
                /\ (toLowerCase ext = e \/ "." ++ toLowerCase ext = e).
Proof.
  unfold isExtensionSupported, js_in.
  destruct ext as [| c r].
  - simpl. split; [discriminate |].
    intros (e & Hin & [He | He]); subst; simpl in Hin;
      repeat destruct Hin as [Hin | Hin]; discriminate + contradiction.
  - destruct (ascii_dec c ".") as [-> | Hc].
    + assert (Hs : starts_with "." (String "." r) = true) by (destruct r; reflexivity).
      rewrite Hs.
      rewrite toLowerCase_dot.
      change (existsb (String.eqb (String "." (toLowerCase r))) object_prototype_members)
        with false.
      rewrite orb_false_r, in_existsb_eqb. split.
      * intros H. exists (String "." (toLowerCase r)). split; [exact H | left; reflexivity].
      * intros (e & Hin & [He | He]); [subst; exact Hin |].
        subst e. simpl in Hin. repeat destruct Hin as [Hin | Hin]; discriminate + contradiction.
    + assert (Hs : starts_with "." (String c r) = false).
      { unfold starts_with. cbn [String.prefix]. destruct (ascii_dec "." c); [congruence | reflexivity]. }
      rewrite Hs.
      change (("." ++ toLowerCase (String c r)))
        with (String "." (String (to_lower_char c) (toLowerCase r))).
      change (existsb (String.eqb (String "." (String (to_lower_char c) (toLowerCase r))))
                object_prototype_members) with false.
      rewrite orb_false_r, in_existsb_eqb. split.
      * intros H. exists (String "." (String (to_lower_char c) (toLowerCase r))).
        split; [exact H | right; reflexivity].
      * intros (e & Hin & [He | He]); [| subst; exact Hin].
        apply supported_extensions_dot in Hin. destruct Hin as [x Hx]. subst e.
        change (toLowerCase (String c r)) with (String (to_lower_char c) (toLowerCase r)) in He.
        assert (Hl : to_lower_char c = "."%char) by congruence. exfalso; exact (Hc (proj1 (to_lower_char_dot c) Hl)).
Qed.

Lemma Qlt_bool_iff (x y : Q) : Qlt_bool x y = true <-> (x < y)%Q.
Proof.
  unfold Qlt_bool. rewrite negb_true_iff. split; intros H.
  - apply Qnot_le_lt. intros H'. apply Qle_bool_iff in H'. congruence.
  - destruct (Qle_bool y x) eqn:E; [| reflexivity].
    apply Qle_bool_iff in E. exfalso. exact (Qlt_not_le _ _ H E).
Qed.

Section Retry.
Variable results : nat -> ExtractionResult.
Variables retries delayMs : Q.

Lemma retry_step_fail (a f : nat) (last : option ExtractionResult) :
  Qle_bool (inject_Z (Z.of_nat a)) retries = true -> success (results a) = false ->
  retry_loop results retries delayMs (S f) a last =
  let '(ev, x) := retry_loop results retries delayMs f (S a) (Some (results a)) in
  (((Attempt a :: (if Qlt_bool (inject_Z (Z.of_nat a)) retries then [Sleep delayMs] else []))
    ++ ev)%list, x).
Proof. intros H1 H2. cbn [retry_loop]. rewrite H1, H2. reflexivity. Qed.

Lemma retry_prefix (m : nat) : forall (a f : nat) (last : option ExtractionResult),
  (forall i, i < m -> success (results (a + i)) = false) ->
  (inject_Z (Z.of_nat (a + m)) <= retries)%Q ->
  exists last',
  retry_loop results retries delayMs (m + f) a last =
  let '(ev, x) := retry_loop results retries delayMs f (a + m) last' in
  ((concat (map (fun i => [Attempt i; Sleep delayMs]) (seq a m)) ++ ev)%list, x).
Proof.
  induction m as [| m IH]; intros a f last Hfail Hle.
  - exists last. rewrite Nat.add_0_r. simpl. destruct (retry_loop _ _ _ _ _ _); reflexivity.
  - assert (Ha : Qle_bool (inject_Z (Z.of_nat a)) retries = true).
    { apply Qle_bool_iff. eapply Qle_trans; [| exact Hle]. rewrite <- Zle_Qle. lia. }
    assert (Hlt : Qlt_bool (inject_Z (Z.of_nat a)) retries = true).
    { apply Qlt_bool_iff. eapply Qlt_le_trans; [| exact Hle]. rewrite <- Zlt_Qlt. lia. }
    change (S m + f) with (S (m + f)).
    rewrite retry_step_fail; [| exact Ha | rewrite <- (Nat.add_0_r a); apply Hfail; lia].
    rewrite Hlt.
    destruct (IH (S a) f (Some (results a))) as [last' Hl].
    + intros i Hi. replace (S a + i) with (a + S i) by lia. apply Hfail. lia.
    + replace (S a + m) with (a + S m) by lia. exact Hle.
    + exists last'. rewrite Hl. replace (S a + m) with (a + S m) by lia.
      destruct (retry_loop _ _ _ f (a + S m) last'). reflexivity.
Qed.

End Retry.

Lemma floor_nonneg (r : Q) : (0 <= r)%Q -> (0 <= Qfloor r)%Z.
Proof.
  intros H. change 0%Z with (Qfloor 0). apply Qfloor_resp_le. exact H.
Qed.

Lemma floor_nat (r : Q) : (0 <= r)%Q -> Z.of_nat (Z.to_nat (Qfloor r)) = Qfloor r.
Proof. intros H. apply Z2Nat.id, floor_nonneg, H. Qed.

Lemma nat_le_floor (r : Q) (k : nat) :
  (0 <= r)%Q -> (inject_Z (Z.of_nat k) <= r)%Q -> k <= Z.to_nat (Qfloor r).
Proof.
  intros H0 Hk. assert (Hf := Qlt_floor r).
  assert (Hlt : (inject_Z (Z.of_nat k) < inject_Z (Qfloor r + 1))%Q) by (eapply Qle_lt_trans; eauto).
  rewrite <- Zlt_Qlt in Hlt. assert (Hn := floor_nat r H0). lia.
Qed.

Lemma retry_stop (results : nat -> ExtractionResult) (retries delayMs : Q) (a f : nat)
  (last : option ExtractionResult) :
  (0 <= retries)%Q -> a = S (Z.to_nat (Qfloor retries)) ->
  retry_loop results retries delayMs (S f) a last = ([], last).
Proof.
  intros H0 ->. cbn [retry_loop].
  destruct (Qle_bool _ retries) eqn:E; [| reflexivity].
  apply Qle_bool_iff in E. apply nat_le_floor in E; [lia | exact H0].
Qed.



(** X9: when the attempts before [k] fail, attempt [k] succeeds and
    [k <= retries], [extractWithRetry] makes attempts [0 .. k], sleeping
    [delayMs] after each failed one, and resolves to the result of attempt
    [k]. *)
Theorem extractWithRetry_first_success (results : nat -> ExtractionResult) (retries delayMs : Q)
  (k : nat) :
  (forall i, i < k -> success (results i) = false) -> success (results k) = true ->
  (inject_Z (Z.of_nat k) <= retries)%Q ->
  extractWithRetry results (Some retries) (Some delayMs) =
  ((concat (map (fun i => [Attempt i; Sleep delayMs]) (seq 0 k)) ++ [Attempt k])%list,
   Some (results k)).
Proof.
  intros Hfail Hok Hk. unfold extractWithRetry.
  assert (H0 : (0 <= retries)%Q).
  { eapply Qle_trans; [| exact Hk]. change 0%Q with (inject_Z 0). rewrite <- Zle_Qle. lia. }
  assert (HkN := nat_le_floor retries k H0 Hk).
  replace (Z.to_nat (Qfloor retries) + 2) with (k + S (Z.to_nat (Qfloor retries) + 1 - k)) by lia.
  destruct (retry_prefix results retries delayMs k 0 (S (Z.to_nat (Qfloor retries) + 1 - k)) None)
    as [last' Hl]; [intros i Hi; apply Hfail, Hi | exact Hk |].
  rewrite Hl. clear Hl. simpl plus. cbn [retry_loop].
  replace (Qle_bool (inject_Z (Z.of_nat k)) retries) with true by (symmetry; apply Qle_bool_iff, Hk).
  rewrite Hok. reflexivity.
Qed.

Theorem extractWithRetry_first_success_witness :
  extractWithRetry
    (fun n => if Nat.ltb n 2 then Failure "busy" "EXTRACTION_ERROR"
              else TextSuccess "hello" (mkMetadata gemini "gemini-1.5-flash" (JSString "text") "a.txt" 0))
    (Some (3 # 1)%Q) (Some (1000 # 1)%Q)
  = ((concat (map (fun i => [Attempt i; Sleep (1000 # 1)%Q]) (seq 0 2)) ++ [Attempt 2])%list,
     Some (TextSuccess "hello" (mkMetadata gemini "gemini-1.5-flash" (JSString "text") "a.txt" 0))).
Proof.
  apply extractWithRetry_first_success.
  - intros i Hi. cbv beta. rewrite (proj2 (Nat.ltb_lt i 2) Hi). reflexivity.
  - reflexivity.
  - unfold Qle; simpl; lia.
Defined.

(** X10: with [retries < 0], [extractWithRetry] makes no attempt, never
    sleeps and resolves to [undefined]. *)
Theorem extractWithRetry_negative (results : nat -> ExtractionResult) (retries : Q)
  (delayMs : option Q) :
  (retries < 0)%Q -> extractWithRetry results (Some retries) delayMs = ([], None).
Proof.
  intros Hneg. unfold extractWithRetry. cbn [retry_loop Nat.add].
  destruct (Z.to_nat (Qfloor retries)); cbn [retry_loop Nat.add];
  (destruct (Qle_bool _ retries) eqn:E; [| reflexivity]);
  apply Qle_bool_iff in E; exfalso; apply (Qlt_not_le _ _ Hneg E).
Qed.

Theorem extractWithRetry_negative_witness :
  extractWithRetry (fun _ => Failure "busy" "EXTRACTION_ERROR") (Some ((-1) # 1)%Q) None = ([], None).
Proof. apply extractWithRetry_negative. reflexivity. Defined.

(** X11: [setProvider(provider, apiKey, model)] always replaces the config by
    [{ provider, apiKey, model }]; it succeeds exactly when the provider is
    not [vertex] and the trimmed key is non-empty, and then the adapter is
    the new provider with [model || DEFAULT_MODEL]; when it throws, the old
    adapter stays. *)
Theorem setProvider_spec (s : ocr_state) (p : AIProvider) (apiKey : string)
  (m : option string) :
  let '(r, s') := setProvider s p apiKey m in
  config s' = mkOcrConfig p (Some apiKey) m None
  /\ provider s' = match r with
                   | Ok _ => mkProvider p (or_default m (DEFAULT_MODEL p))
                   | Rejected _ => provider s
                   end
  /\ (r = Ok tt <-> p <> vertex /\ trim apiKey <> EmptyString).
Proof.
  unfold setProvider, createProvider, new_provider, BaseProvider_check. cbn [config_provider config_apiKey config_model config_vertexConfig truthy_str].
  destruct (String.eqb_spec apiKey EmptyString) as [-> | Hne].
  - destruct p; cbn; (split; [reflexivity | split; [reflexivity |]]);
      split; try discriminate; intros [_ H]; exfalso; apply H; reflexivity.
  - cbn [negb orb].
    destruct (String.eqb_spec (trim apiKey) EmptyString) as [Ht | Ht];
      destruct p; cbn; (split; [reflexivity | split; [reflexivity |]]);
      split; solve [ discriminate
                   | intros [H1 H2]; exfalso; solve [apply H1; reflexivity | apply H2, Ht]
                   | intros _; split; [discriminate | exact Ht]
                   | reflexivity
                   | intros _; reflexivity ].
Qed.

Lemma lookup_categories_mime (k : string) :
  match lookup MIME_TYPES k with
  | Some m => exists t, lookup FILE_TYPE_CATEGORIES k = Some t
  | None => lookup FILE_TYPE_CATEGORIES k = None
  end.
Proof.
  assert (H := lookup_same_keys MIME_TYPES FILE_TYPE_CATEGORIES k eq_refl).
  destruct (lookup MIME_TYPES k), (lookup FILE_TYPE_CATEGORIES k); try discriminate; eauto.
Qed.

Lemma isExtensionSupported_dot (r : string) :
  isExtensionSupported (String "." r)
  = match lookup MIME_TYPES (String "." (toLowerCase r)) with Some _ => true | None => false end.
Proof.
  unfold isExtensionSupported, js_in.
  assert (Hs : starts_with "." (String "." r) = true) by (destruct r; reflexivity).
  rewrite Hs, toLowerCase_dot, lookup_existsb.
  change (existsb (String.eqb (String "." (toLowerCase r))) object_prototype_members) with false.
  apply orb_false_r.
Qed.

Lemma in_known (t : string) : In t ["pdf"; "image"; "text"] -> known_type (JSString t) = true.
Proof. intros H. unfold known_type, includes_type. apply in_existsb_eqb, H. Qed.

Lemma known_truthy (t : string) : In t ["pdf"; "image"; "text"] -> String.eqb t EmptyString = false.
Proof. simpl. intros H. repeat destruct H as [<- | H]; try reflexivity. contradiction. Qed.

Lemma loadFileFromBuffer_cases (buffer fileName : string) :
  let ext := toLowerCase (extname fileName) in
  (isExtensionSupported (extname fileName) = true ->
   exists t m, lookup FILE_TYPE_CATEGORIES ext = Some t /\ lookup MIME_TYPES ext = Some m
     /\ loadFileFromBuffer buffer fileName None
        = Ret (mkFileInfo EmptyString fileName (JSString t) (JSString m)
                          (String.length buffer) buffer))
  /\ (isExtensionSupported (extname fileName) = false ->
      loadFileFromBuffer buffer fileName None
      = throw_error ("Unsupported file type: " ++ ext ++ ". Supported types: " ++ supported_list)).
Proof.
  intros ext. unfold loadFileFromBuffer. fold ext.
  destruct (extname_shape fileName) as [E | [r E]]; subst ext; rewrite E.
  - split; [discriminate | intros _; reflexivity].
  - rewrite isExtensionSupported_dot, toLowerCase_dot.
    cbn [truthy_str]. rewrite !js_get_dot.
    assert (Hc := lookup_categories_mime (String "." (toLowerCase r))).
    destruct (lookup MIME_TYPES (String "." (toLowerCase r))) as [m |] eqn:Em.
    + destruct Hc as [t Ht]. rewrite Ht. split; [| discriminate]. intros _.
      exists t, m. split; [reflexivity | split; [reflexivity |]].
      cbn [truthy negb orb].
      rewrite (mime_types_nonempty _ _ Em), (known_truthy t (categories_known _ _ Ht)).
      reflexivity.
    + rewrite Hc. split; [discriminate | intros _].
      cbn [truthy negb orb]. reflexivity.
Qed.

(** X2: without a MIME type, [loadFileFromBuffer(buffer, fileName)] succeeds
    exactly when [isExtensionSupported(path.extname(fileName))]: it then
    returns the buffer with the category and MIME type of the lower-cased
    extension, and otherwise throws Unsupported file type. *)
Theorem loadFileFromBuffer_by_extension (buffer fileName : string) :
  let ext := toLowerCase (extname fileName) in
  (isExtensionSupported (extname fileName) = true ->
   exists t m, lookup FILE_TYPE_CATEGORIES ext = Some t /\ lookup MIME_TYPES ext = Some m
     /\ loadFileFromBuffer buffer fileName None
        = Ret (mkFileInfo EmptyString fileName (JSString t) (JSString m)
                          (String.length buffer) buffer))
  /\ (isExtensionSupported (extname fileName) = false ->
      loadFileFromBuffer buffer fileName None
      = throw_error ("Unsupported file type: " ++ ext ++ ". Supported types: " ++ supported_list)).
Proof. exact (loadFileFromBuffer_cases buffer fileName). Qed.

Lemma all_results_bind {A B : Type} (P : B -> Prop) (Q : A -> Prop) (p : prog A)
  (f : A -> prog B) :
  all_results Q p -> (forall a, Q a -> all_results P (f a)) -> all_results P (bind p f).
Proof.
  induction p as [a | e | k IH | k IH | X c k IH]; simpl; intros Hp Hf; auto.
Qed.

Lemma all_results_catch {A : Type} (P : A -> Prop) (p : prog A) (h : js_error -> prog A) :
  all_results P p -> (forall e, all_results P (h e)) -> all_results P (catch p h).
Proof.
  induction p as [a | e | k IH | k IH | X c k IH]; simpl; intros Hp Hh; auto.
Qed.

Lemma all_results_true {A : Type} (p : prog A) : all_results (fun _ => True) p.
Proof. induction p; simpl; auto. Qed.

Lemma all_results_run {A : Type} (P : A -> Prop) (h : handler) (sched : scheduler)
  (p : prog A) : forall (s : ocr_state) (r : A), all_results P p -> run h sched s p = Ok r -> P r.
Proof.
  induction p as [a | e | k IH | k IH | X c k IH]; simpl; intros s r Hp Hr.
  - injection Hr as <-. exact Hp.
  - discriminate.
  - eapply IH; eauto.
  - eapply IH; eauto.
  - eapply IH; eauto.
Qed.


Ltac results_step :=
  match goal with
  | |- all_results _ (bind _ _) =>
      eapply all_results_bind; [apply all_results_true | intros ? _]
  | |- all_results _ (Ret _) => simpl; try discriminate; try exact I
  | |- all_results _ (ReadProvider _) => cbn [all_results]; intros ?
  | |- all_results _ (ReadClock _) => cbn [all_results]; intros ?
  | |- forall _, _ => intros ?
  | |- all_results _ (if ?b then _ else _) => destruct b
  | |- all_results _ (match ?x with _ => _ end) => destruct x
  end.

Lemma supportsFileType_known (pv : provider_inst) (t : jsval) :
  supportsFileType pv t = known_type t.
Proof. unfold supportsFileType. destruct (name pv); reflexivity. Qed.

Lemma processExtraction_not_unsupported (resolve : string -> string) (file : FileInfo)
  (options : option ExtractionOptions) (startTime : Z) :
  known_type (fi_type file) = true ->
  all_results not_unsupported (processExtraction resolve file options startTime).
Proof.
  intros Hk. unfold processExtraction, this_provider. cbn [bind all_results]. intros pv.
  rewrite supportsFileType_known, Hk. cbn [negb].
  apply all_results_catch; [| intros e; destruct e; simpl; discriminate].
  repeat results_step.
Qed.

Lemma category_known (p : string) :
  truthy (js_get FILE_TYPE_CATEGORIES (toLowerCase (extname p))) = true ->
  known_type (js_get FILE_TYPE_CATEGORIES (toLowerCase (extname p))) = true.
Proof.
  destruct (extname_shape p) as [E | [r E]]; rewrite E; [discriminate |].
  rewrite toLowerCase_dot, js_get_dot.
  destruct (lookup FILE_TYPE_CATEGORIES _) as [t |] eqn:Et; [| discriminate].
  intros _. apply in_known. eapply categories_known. exact Et.
Qed.


Lemma try_load_not_unsupported (resolve : string -> string) (load : prog FileInfo)
  (options : option ExtractionOptions) (startTime : Z) :
  all_results known_file load ->
  all_results not_unsupported (try_load resolve load options startTime).
Proof.
  intros Hl. unfold try_load.
  eapply all_results_bind with
    (Q := fun r => match r with inl f => known_file f | inr res => not_unsupported res end).
  - apply all_results_catch.
    + eapply all_results_bind; [exact Hl | intros f Hf; exact Hf].
    + intros e. destruct e; simpl; discriminate.
  - intros [f | res] H; [apply processExtraction_not_unsupported, H | exact H].
Qed.

Lemma loadFileFromBuffer_known (buffer fileName : string) :
  all_results known_file (loadFileFromBuffer buffer fileName None).
Proof.
  destruct (loadFileFromBuffer_cases buffer fileName) as [H1 H2].
  destruct (isExtensionSupported (extname fileName)).
  - destruct (H1 eq_refl) as (t & m & Ht & _ & ->). simpl. unfold known_file. simpl.
    apply in_known. eapply categories_known. exact Ht.
  - rewrite (H2 eq_refl). exact I.
Qed.

Lemma loadFileFromBase64_known (base64_decode : string -> string) (base64 fileName : string) :
  all_results known_file (loadFileFromBase64 base64_decode base64 fileName None).
Proof.
  unfold loadFileFromBase64. cbn [truthy_str].
  destruct (negb _ || negb (truthy (js_get FILE_TYPE_CATEGORIES (toLowerCase (extname fileName)))))
    eqn:E; [exact I |].
  apply orb_false_iff in E. destruct E as [_ E]. apply negb_false_iff in E.
  exact (category_known fileName E).
Qed.

Lemma loadFile_known (resolve : string -> string) (filePath : string) :
  all_results known_file (loadFile resolve filePath).
Proof.
  unfold loadFile.
  eapply all_results_bind; [apply all_results_true | intros ? _].
  eapply all_results_bind; [apply all_results_true | intros stats _].
  destruct (negb (isFile stats)); [exact I |].
  destruct (negb _ || negb (truthy (js_get FILE_TYPE_CATEGORIES
                                       (toLowerCase (extname (resolve filePath))))))
    eqn:E; [exact I |].
  apply orb_false_iff in E. destruct E as [_ E]. apply negb_false_iff in E.
  eapply all_results_bind; [apply all_results_true | intros ? _].
  exact (category_known _ E).
Qed.

Lemma not_unsupported_code (h : handler) (sched : scheduler) (s : ocr_state)
  (p : prog ExtractionResult) :
  all_results not_unsupported p -> result_code (run h sched s p) <> Some "UNSUPPORTED_FILE_TYPE".
Proof.
  intros Hp. destruct (run h sched s p) as [r |] eqn:E; [| discriminate].
  apply (all_results_run _ h sched p s r Hp) in E.
  destruct r as [| | err code]; simpl; try discriminate.
  intros Hc. injection Hc as Hc. exact (E Hc).
Qed.

(** X3: [extractFromBuffer] and [extractFromBase64] never resolve to a
    result with the code UNSUPPORTED_FILE_TYPE, whatever the world and
    whatever happens to the instance meanwhile. *)
Theorem local_extraction_never_unsupported (resolve base64_decode : string -> string)
  (buffer base64 fileName : string) (options : option ExtractionOptions)
  (h : handler) (sched : scheduler) (s : ocr_state) :
  result_code (run h sched s (extractFromBuffer resolve buffer fileName options))
    <> Some "UNSUPPORTED_FILE_TYPE"
  /\ result_code (run h sched s (extractFromBase64 resolve base64_decode base64 fileName options))
    <> Some "UNSUPPORTED_FILE_TYPE".
Proof.
  split; apply not_unsupported_code;
    unfold extractFromBuffer, extractFromBase64, date_now; cbn [bind all_results]; intros t;
    apply try_load_not_unsupported.
  - apply loadFileFromBuffer_known.
  - apply loadFileFromBase64_known.
Qed.

(** X4: for a source that is not a URL, [extract] never resolves to a result
    with the code UNSUPPORTED_FILE_TYPE. *)
Theorem extract_path_never_unsupported (resolve url_pathname : string -> string)
  (disposition_filename : string -> option string) (source : string)
  (options : option ExtractionOptions) (h : handler) (sched : scheduler) (s : ocr_state) :
  isUrl source = false ->
  result_code (run h sched s (extract resolve url_pathname disposition_filename source options))
    <> Some "UNSUPPORTED_FILE_TYPE".
Proof.
  intros Hu. apply not_unsupported_code.
  unfold extract, date_now; cbn [bind all_results]; intros t. rewrite Hu.
  apply try_load_not_unsupported, loadFile_known.
Qed.

Theorem extract_path_never_unsupported_witness :
  result_code (run (demo_handler (ok_response "text/plain")) no_interleaving demo_state
                 (extract (fun p => p) (fun _ => "/a.pdf") (fun _ => None) "/tmp/a.pdf" None))
    <> Some "UNSUPPORTED_FILE_TYPE".
Proof. apply extract_path_never_unsupported. reflexivity. Defined.

Lemma includes_char_app_hit (c : ascii) (a b : string) :
  includes_char c (a ++ String c b) = true.
Proof.
  induction a as [| d a IH]; simpl.
  - rewrite Ascii.eqb_refl. reflexivity.
  - rewrite IH. apply orb_true_r.
Qed.

Lemma after_char_app (c : ascii) (a b : string) :
  includes_char c a = false -> after_char c (a ++ String c b) = b.
Proof.
  induction a as [| d a IH]; simpl; intros H.
  - rewrite Ascii.eqb_refl. reflexivity.
  - apply orb_false_iff in H. destruct H as [H1 H2]. rewrite H1. apply IH, H2.
Qed.


Lemma before_char_app (c : ascii) (a rest : string) :
  includes_char c a = false -> (rest = EmptyString \/ exists r, rest = String c r) ->
  before_char c (a ++ rest) = a.
Proof.
  induction a as [| d a IH]; simpl; intros H Hr.
  - destruct Hr as [-> | [r ->]]; simpl; [reflexivity | rewrite Ascii.eqb_refl; reflexivity].
  - apply orb_false_iff in H. destruct H as [H1 H2]. rewrite H1, IH; [reflexivity | exact H2 | exact Hr].
Qed.

(** X5: [loadFileFromBase64] decodes only the text between the first and
    the second comma: a comma-free prefix such as [data:image/png;base64]
    before the first comma, and anything from a second comma on, leave the
    loaded file unchanged. *)
Theorem loadFileFromBase64_data_url (base64_decode : string -> string)
  (prefix payload rest fileName : string) (mimeType : option string) :
  includes_char ","%char prefix = false -> includes_char ","%char payload = false ->
  (rest = EmptyString \/ exists r, rest = String ","%char r) ->
  loadFileFromBase64 base64_decode (prefix ++ String ","%char (payload ++ rest)) fileName mimeType
  = loadFileFromBase64 base64_decode payload fileName mimeType.
Proof.
  intros Hp Hd Hr. unfold loadFileFromBase64.
  rewrite includes_char_app_hit, after_char_app, before_char_app, Hd; auto.
Qed.

Theorem loadFileFromBase64_data_url_witness :
  loadFileFromBase64 (fun d => d) ("data:image/png;base64" ++ String ","%char ("aGVsbG8=" ++ EmptyString))
    "a.png" None
  = loadFileFromBase64 (fun d => d) "aGVsbG8=" "a.png" None.
Proof. apply loadFileFromBase64_data_url; [reflexivity | reflexivity | left; reflexivity]. Defined.

(** X6: when the fetch answers with a response that is not ok,
    [loadFileFromUrl] rejects with Failed to fetch URL, the status and the
    status text, and never calls a service. *)
Theorem loadFileFromUrl_not_ok (url_pathname : string -> string)
  (disposition_filename : string -> option string) (url : string) (h : handler)
  (sched : scheduler) (s : ocr_state) (response : Response) :
  answer h _ (Fetch url) = Ok response -> resp_ok response = false ->
  run h sched s (loadFileFromUrl url_pathname disposition_filename url)
  = Rejected (ErrorObj ("Failed to fetch URL: " ++ show_Z (resp_status response) ++ " "
                        ++ resp_statusText response))
  /\ calls_backend h sched s (loadFileFromUrl url_pathname disposition_filename url) = false.
Proof.
  intros Hf Hok. unfold loadFileFromUrl, await. cbn [bind run calls_backend is_backend orb].
  rewrite Hf. cbn [bind]. rewrite Hok. cbn [negb]. split; reflexivity.
Qed.

Theorem loadFileFromUrl_not_ok_witness :
  run (demo_handler (mkResponse false 404 "Not Found" None None)) no_interleaving demo_state
      (loadFileFromUrl (fun _ => "/a.pdf") (fun _ => None) "https://example.com/a.pdf")
  = Rejected (ErrorObj ("Failed to fetch URL: " ++ show_Z 404 ++ " " ++ "Not Found"))
  /\ calls_backend (demo_handler (mkResponse false 404 "Not Found" None None)) no_interleaving
       demo_state (loadFileFromUrl (fun _ => "/a.pdf") (fun _ => None) "https://example.com/a.pdf")
     = false.
Proof.
  apply (loadFileFromUrl_not_ok _ _ _ _ _ _ (mkResponse false 404 "Not Found" None None));
    reflexivity.
Defined.

(** X7: when the fetch is ok and the Content-Type before its first [;] is a
    known MIME type, [loadFileFromUrl] resolves with that MIME type and its
    category, whatever the file name is. *)
Theorem loadFileFromUrl_content_type (url_pathname : string -> string)
  (disposition_filename : string -> option string) (url : string) (h : handler)
  (sched : scheduler) (s : ocr_state) (response : Response) (buffer header t : string) :
  answer h _ (Fetch url) = Ok response -> resp_ok response = true ->
  answer h _ (ArrayBuffer url) = Ok buffer ->
  resp_content_type response = Some header ->
  lookup MIME_TO_FILE_TYPE (before_char ";"%char header) = Some t ->
  exists fileName,
    run h sched s (loadFileFromUrl url_pathname disposition_filename url)
    = Ok (mkFileInfo url fileName (JSString t) (JSString (before_char ";"%char header))
                     (String.length buffer) buffer).
Proof.
  intros Hf Hok Hb Hct Ht. unfold loadFileFromUrl, await. cbn [bind run].
  rewrite Hf. cbn [bind]. rewrite Hok. cbn [negb]. rewrite Hct.
  cbn [bind run]. rewrite Hb. cbn [bind].
  assert (Hg : js_get MIME_TO_FILE_TYPE (before_char ";"%char header) = JSString t)
    by (unfold js_get; rewrite Ht; reflexivity).
  rewrite Hg.
  assert (Hn : String.eqb t EmptyString = false).
  { apply lookup_In in Ht. simpl in Ht.
    repeat destruct Ht as [Ht | Ht]; try (injection Ht as _ <-; reflexivity); contradiction. }
  assert (Ee : String.eqb (before_char ";"%char header) EmptyString = false).
  { destruct (String.eqb_spec (before_char ";"%char header) EmptyString) as [E |]; [| reflexivity].
    rewrite E in Ht. discriminate. }
  assert (T1 : truthy (JSString t) = true) by (unfold truthy; rewrite Hn; reflexivity).
  assert (T2 : truthy (JSString (before_char ";"%char header)) = true)
    by (unfold truthy; rewrite Ee; reflexivity).
  rewrite T1. cbn [negb]. rewrite T1, T2. cbn [negb orb]. eexists. reflexivity.
Qed.

Theorem loadFileFromUrl_content_type_witness :
  exists fileName,
    run (demo_handler (ok_response "image/png; charset=binary")) no_interleaving demo_state
        (loadFileFromUrl (fun _ => "/a.bin") (fun _ => None) "https://example.com/a.bin")
    = Ok (mkFileInfo "https://example.com/a.bin" fileName (JSString "image")
                     (JSString (before_char ";"%char "image/png; charset=binary"))
                     (String.length "hello") "hello").
Proof.
  apply (loadFileFromUrl_content_type _ _ _ _ _ _ (ok_response "image/png; charset=binary")
           "hello" "image/png; charset=binary" "image"); reflexivity.
Defined.

(** X12: in text mode with an [outputPath], when the service answers but
    writing the output file fails with an error, [extractFromBuffer]
    resolves to a failure with that error's message and the code
    EXTRACTION_ERROR, not to the extracted text. *)
Theorem extractFromBuffer_save_failure (resolve : string -> string)
  (buffer fileName path : string) (fmt : option string) (sch : option json)
  (mc : option ModelConfig) (h : handler) (sched : scheduler) (s : ocr_state)
  (text msg : string) :
  isExtensionSupported (extname fileName) = true ->
  or_default fmt "text" <> "json" -> path <> EmptyString ->
  (forall pv params, answer h _ (Backend pv params) = Ok text) ->
  (forall dir, answer h _ (Mkdir dir) = Ok tt) ->
  (forall p c, answer h _ (WriteFile p c) = Rejected (ErrorObj msg)) ->
  run h sched s (extractFromBuffer resolve buffer fileName
                   (Some (mkOptions fmt sch (Some path) mc)))
  = Ok (Failure msg "EXTRACTION_ERROR").
Proof.
  intros Hext Hfmt Hpath Hb Hm Hw.
  destruct (loadFileFromBuffer_cases buffer fileName) as [H1 _].
  destruct (H1 Hext) as (t & m & Ht & _ & Hl). clear H1.
  unfold extractFromBuffer, date_now, try_load. cbn [bind run].
  rewrite Hl. cbn [bind catch].
  unfold processExtraction, this_provider, date_now. cbn [bind run].
  cbn [fi_type fi_name]. rewrite supportsFileType_known, in_known by (eapply categories_known; exact Ht).
  cbn [negb format].
  apply String.eqb_neq in Hfmt. rewrite Hfmt.
  unfold extractText, await. cbn [bind catch run]. rewrite Hb. cbn [bind catch run].
  assert (Hp : truthy_str (Some path) = true)
    by (unfold truthy_str; apply String.eqb_neq in Hpath; rewrite Hpath; reflexivity).
  cbn [outputPath]. rewrite Hp.
  unfold saveToFile, await. cbn [bind catch run]. rewrite Hm. cbn [bind catch run].
  rewrite Hw. reflexivity.
Qed.

Theorem extractFromBuffer_save_failure_witness :
  run (world (Ok tt) (mkStats true 5) (ok_response "text/plain") "hello"
             (Rejected (ErrorObj "EACCES: permission denied")))
      no_interleaving demo_state
      (extractFromBuffer (fun p => p) "hello" "a.txt" (Some (mkOptions None None (Some "out.txt") None)))
  = Ok (Failure "EACCES: permission denied" "EXTRACTION_ERROR").
Proof.
  apply extractFromBuffer_save_failure with (text := "hello");
    [reflexivity | discriminate | discriminate | reflexivity | reflexivity | reflexivity].
Defined.

(** X13: in JSON mode with a schema and no [outputPath], when the service
    answers with an empty text, the Gemini adapter makes [extractFromBuffer]
    resolve to the failure Failed to parse JSON response with the code
    EXTRACTION_ERROR, while every other adapter yields a success with the
    empty object. *)
Theorem extractFromBuffer_json_empty_answer (resolve : string -> string)
  (buffer fileName : string) (sch : json) (mc : option ModelConfig) (h : handler)
  (sched : scheduler) (s : ocr_state) :
  isExtensionSupported (extname fileName) = true ->
  (forall pv params, answer h _ (Backend pv params) = Ok EmptyString) ->
  let r := run h sched s (extractFromBuffer resolve buffer fileName
                            (Some (mkOptions (Some "json") (Some sch) None mc))) in
  (name (provider s) = gemini ->
   r = Ok (Failure "Failed to parse JSON response: ..." "EXTRACTION_ERROR"))
  /\ (name (provider s) <> gemini -> exists md, r = Ok (JsonSuccess (JObj []) md)).
Proof.
  intros Hext Hb r. subst r.
  destruct (loadFileFromBuffer_cases buffer fileName) as [H1 _].
  destruct (H1 Hext) as (t & m & Ht & _ & Hl). clear H1.
  unfold extractFromBuffer, date_now, try_load. cbn [bind run].
  rewrite Hl. cbn [bind catch].
  unfold processExtraction, this_provider, date_now. cbn [bind run].
  cbn [fi_type fi_name]. rewrite supportsFileType_known, in_known by (eapply categories_known; exact Ht).
  cbn [negb format schema outputPath].
  change (String.eqb (or_default (Some "json") "text") "json") with true. cbn iota.
  unfold extractJson, await. cbn [bind catch run]. rewrite Hb. cbn [bind catch run].
  split.
  - intros Hg. rewrite Hg. reflexivity.
  - intros Hg. destruct (name (provider s)); try (exfalso; apply Hg; reflexivity);
      eexists; reflexivity.
Qed.

Theorem extractFromBuffer_json_empty_answer_witness :
  let r := run (world (Ok tt) (mkStats true 5) (ok_response "text/plain") EmptyString (Ok tt))
               no_interleaving demo_state
               (extractFromBuffer (fun p => p) "hello" "a.txt"
                  (Some (mkOptions (Some "json") (Some (JObj [])) None None))) in
  (name (provider demo_state) = gemini ->
   r = Ok (Failure "Failed to parse JSON response: ..." "EXTRACTION_ERROR"))
  /\ (name (provider demo_state) <> gemini -> exists md, r = Ok (JsonSuccess (JObj []) md)).
Proof. apply extractFromBuffer_json_empty_answer; reflexivity. Defined.

Lemma letter_facts (c : ascii) : letter_b c = true ->
  is_js_ws c = false /\ is_json_ws c = false /\ Ascii.eqb c "`"%char = false
  /\ Ascii.eqb c "n"%char = false /\ Ascii.eqb c "t"%char = false
  /\ Ascii.eqb c "f"%char = false /\ Ascii.eqb c "j"%char = false /\ Ascii.eqb c dq = false
  /\ Ascii.eqb c "["%char = false /\ Ascii.eqb c "{"%char = false
  /\ (Ascii.eqb c "-"%char || is_digit c) = false.
Proof.
  destruct c as [[] [] [] [] [] [] [] []]; vm_compute; intros H;
    solve [discriminate H | repeat split].
Qed.

Lemma letter_b_spec (c : ascii) :
  (65 <= nat_of_ascii c <= 90 \/ 97 <= nat_of_ascii c <= 122) ->
  ~ In c ["j"; "n"; "t"; "f"]%char -> letter_b c = true.
Proof.
  intros Hr Hn. unfold letter_b. apply andb_true_intro. split.
  - destruct Hr as [[H1 H2] | [H1 H2]]; apply orb_true_intro; [left | right];
      apply andb_true_intro; split; apply Nat.leb_le; lia.
  - apply negb_true_iff. destruct (existsb (Ascii.eqb c) _) eqn:E; [| reflexivity].
    apply existsb_exists in E. destruct E as [x [Hx He]]. apply Ascii.eqb_eq in He. subst.
    contradiction.
Qed.

Lemma trim_end_cons (c : ascii) (r : string) :
  is_js_ws c = false -> trim_end (String c r) = String c (trim_end r).
Proof. intros H. simpl. destruct (trim_end r); [rewrite H |]; reflexivity. Qed.

Lemma slice_drop_fence (c : ascii) (x : string) :
  Ascii.eqb c "`"%char = false -> ends_with fence (String c x) = true ->
  exists y, slice_drop_end 3 (String c x) = String c y.
Proof.
  intros Hc He. unfold ends_with in He. apply andb_true_iff in He. destruct He as [Hl Hs].
  apply Nat.leb_le in Hl. unfold fence in *. cbn [String.length] in *.
  unfold slice_drop_end. cbn [String.length].
  destruct (Nat.eq_dec (String.length x) 2) as [E | E].
  - rewrite E in Hs. cbn in Hs. destruct x as [| a [| b x]]; try discriminate.
    cbn in Hs. rewrite Hc in Hs. discriminate Hs.
  - replace (S (String.length x) - 3) with (S (String.length x - 3)) by lia.
    eexists. reflexivity.
Qed.

(** X14: a response that starts with a code fence whose tag begins with an
    ASCII letter other than [j], [n], [t] and [f] (such as JSON, Json or
    xml) is rejected by [parseJsonResponse], whatever follows. *)
Theorem parseJsonResponse_fence_tag (c : ascii) (rest : string) :
  (65 <= nat_of_ascii c <= 90 \/ 97 <= nat_of_ascii c <= 122) ->
  ~ In c ["j"; "n"; "t"; "f"]%char ->
  parseJsonResponse (fence ++ String c rest)
  = Rejected (ErrorObj ("Failed to parse JSON response: "
                        ++ substring_to 200 (fence ++ String c rest) ++ "...")).
Proof.
  intros Hr Hn. apply letter_b_spec in Hn; [| exact Hr].
  destruct (letter_facts c Hn) as (Hws & Hjws & Hbt & Hn' & Ht & Hf & Hj & Hdq & Hb & Hbr & Hd).
  unfold parseJsonResponse, parseJsonResponse_with, strip_fences.
  assert (Htrim : trim (fence ++ String c rest)
                  = String "`" (String "`" (String "`" (String c (trim_end rest))))).
  { unfold trim, fence. cbn [append trim_start]. change (is_js_ws "`") with false. cbn iota.
    rewrite !trim_end_cons by (reflexivity || exact Hws). reflexivity. }
  rewrite Htrim.
  assert (Hj1 : starts_with "```json" (String "`" (String "`" (String "`" (String c (trim_end rest)))))
                = false).
  { unfold starts_with. cbn [String.prefix]. destruct (ascii_dec "`" "`"); [| congruence].
    destruct (ascii_dec "j" c) as [E | E]; [subst; discriminate Hj | reflexivity]. }
  rewrite Hj1.
  change (starts_with fence (String "`" (String "`" (String "`" (String c (trim_end rest))))))
    with true. cbn iota.
  unfold slice_from. cbn [String.length Nat.sub substring]. rewrite substring_all.
  assert (Hy : exists y, (if ends_with fence (String c (trim_end rest))
                          then slice_drop_end 3 (String c (trim_end rest))
                          else String c (trim_end rest)) = String c y).
  { destruct (ends_with fence _) eqn:E; [apply slice_drop_fence; assumption | eexists; reflexivity]. }
  destruct Hy as [y Hy]. rewrite Hy.
  unfold trim. cbn [trim_start]. rewrite Hws. rewrite trim_end_cons by exact Hws.
  unfold json_parse. cbn [skip_ws]. rewrite Hjws.
  cbn [String.length Nat.mul Nat.add parse_value].
  rewrite Hn', Ht, Hf, Hdq, Hb, Hbr, Hd. reflexivity.
Qed.

Theorem parseJsonResponse_fence_tag_witness :
  parseJsonResponse (fence ++ String "J" ("SON" ++ nl ++ "{}" ++ nl ++ fence))
  = Rejected (ErrorObj ("Failed to parse JSON response: "
                        ++ substring_to 200 (fence ++ String "J" ("SON" ++ nl ++ "{}" ++ nl ++ fence))
                        ++ "...")).
Proof.
  apply parseJsonResponse_fence_tag.
  - left. change (nat_of_ascii "J") with 74. lia.
  - intros H. vm_compute in H. repeat destruct H as [H | H]; discriminate + contradiction.
Defined.

(** X15: among the image extensions of the loader's tables, Claude's
    [getMediaType] keeps the file's MIME type exactly for jpg, jpeg, png, gif
    and webp; bmp, tiff and tif images are declared as image/jpeg. *)
Theorem getMediaType_image_files (ext m : string) :
  lookup FILE_TYPE_CATEGORIES ext = Some "image" -> lookup MIME_TYPES ext = Some m ->
  (getMediaType m = m <-> In ext [".jpg"; ".jpeg"; ".png"; ".gif"; ".webp"])
  /\ (getMediaType m <> m -> getMediaType m = "image/jpeg").
Proof.
  intros Hc Hm. apply lookup_In in Hc. apply lookup_In in Hm. simpl in Hc.
  repeat destruct Hc as [Hc | Hc]; try discriminate; try contradiction;
    injection Hc as <-; simpl in Hm;
    repeat destruct Hm as [Hm | Hm]; try discriminate; try contradiction;
    injection Hm as <-; vm_compute; split;
    solve [ split; [intros _; tauto | reflexivity]
          | split; [intros H; discriminate H | intros H; repeat destruct H as [H | H]; discriminate + contradiction]
          | intros H; exfalso; apply H; reflexivity
          | intros _; reflexivity ].
Qed.

Theorem getMediaType_image_files_witness :
  (getMediaType "image/bmp" = "image/bmp" <-> In ".bmp" [".jpg"; ".jpeg"; ".png"; ".gif"; ".webp"])
  /\ (getMediaType "image/bmp" <> "image/bmp" -> getMediaType "image/bmp" = "image/jpeg").
Proof. apply getMediaType_image_files; reflexivity. Defined.

(** X16: for a local path, [extract] resolves to File not found when
    [fs.access] rejects, and to Path is not a file when the path is no
    regular file, both with the code EXTRACTION_ERROR and without calling a
    service. *)
Theorem extract_local_file_errors (resolve url_pathname : string -> string)
  (disposition_filename : string -> option string) (source : string)
  (options : option ExtractionOptions) (h : handler) (sched : scheduler) (s : ocr_state) :
  isUrl source = false ->
  let p := extract resolve url_pathname disposition_filename source options in
  ((exists e, answer h _ (FsAccess (resolve source)) = Rejected e) ->
   run h sched s p = Ok (Failure ("File not found: " ++ resolve source) "EXTRACTION_ERROR")
   /\ calls_backend h sched s p = false)
  /\ (forall stats, answer h _ (FsAccess (resolve source)) = Ok tt ->
      answer h _ (FsStat (resolve source)) = Ok stats -> isFile stats = false ->
      run h sched s p = Ok (Failure ("Path is not a file: " ++ resolve source) "EXTRACTION_ERROR")
      /\ calls_backend h sched s p = false).
Proof.
  intros Hu p. subst p. unfold extract, date_now, try_load. rewrite Hu.
  unfold loadFile, await. split.
  - intros [e He]. cbn [bind catch run calls_backend is_backend orb]. rewrite He.
    split; reflexivity.
  - intros stats Ha Hs Hf. cbn [bind catch run calls_backend is_backend orb]. rewrite Ha.
    cbn [bind catch run calls_backend is_backend orb]. rewrite Hs.
    cbn [bind catch]. rewrite Hf. split; reflexivity.
Qed.

Theorem extract_local_file_errors_witness :
  let p := extract (fun p => p) (fun _ => "/a.pdf") (fun _ => None) "/tmp/a.pdf" None in
  let h := world (Rejected (ErrorObj "ENOENT")) (mkStats true 5) (ok_response "text/plain") "hello" (Ok tt) in
  ((exists e, answer h _ (FsAccess ((fun p => p) "/tmp/a.pdf")) = Rejected e) ->
   run h no_interleaving demo_state p
   = Ok (Failure ("File not found: " ++ (fun p => p) "/tmp/a.pdf") "EXTRACTION_ERROR")
   /\ calls_backend h no_interleaving demo_state p = false)
  /\ (forall stats, answer h _ (FsAccess ((fun p => p) "/tmp/a.pdf")) = Ok tt ->
      answer h _ (FsStat ((fun p => p) "/tmp/a.pdf")) = Ok stats -> isFile stats = false ->
      run h no_interleaving demo_state p
      = Ok (Failure ("Path is not a file: " ++ (fun p => p) "/tmp/a.pdf") "EXTRACTION_ERROR")
      /\ calls_backend h no_interleaving demo_state p = false).
Proof. apply extract_local_file_errors. reflexivity. Defined.


